(** * LedgerLiveApi: the JSON-RPC facade of the Ledger Live application SDK

    A shallow embedding of [src/lib/LedgerLiveApiSdk.ts] (class
    [LedgerLiveApi]) and of the declarations of [LedgerLiveApiSdk.types].

    The class owns one [Transport], one [Logger] and an optional
    [JSONRPCServerAndClient] (the session).  Its methods are embedded in a
    state-and-exception monad over the fields of the instance plus a
    chronological trace of everything the instance does to its collaborators
    (logger calls, transport calls, calls into the JSON-RPC engine).

    What the collaborators answer is not decided by the class: the
    [Environment] record lets the transport and the JSON-RPC engine answer as
    they like, as a function of the history so far.

    Calls are run one after the other: a method that awaits is followed to
    its settlement (or to the await that never settles) before the next call
    starts.  Calls that overlap in time are outside this development. *)

From Stdlib Require Import String List ZArith Bool Lia.
Import ListNotations.
Open Scope string_scope.

Set Warnings "-register-all".

(** ** JavaScript values, as far as the facade looks at them *)

Module Js.

(** A JSON-like runtime value.  Numbers are kept as integers plus [NaN]:
    the facade only ever asks whether a value is falsy. *)
Inductive value : Type :=
| Undefined
| Null
| Bool (b : bool)
| Num (n : Z)
| NaN
| Str (s : string)
| Arr (items : list value)
| Obj (fields : list (string * value)).

(** ToBoolean. *)
Definition truthy (v : value) : bool :=
  match v with
  | Undefined | Null | NaN => false
  | Bool b => b
  | Num n => negb (Z.eqb n 0)
  | Str s => negb (String.eqb s "")
  | Arr _ | Obj _ => true
  end.

Definition falsy (v : value) : bool := negb (truthy v).

(** [a || b]. *)
Definition or (a b : value) : value := if truthy a then a else b.

(** [typeof v === "object" && v !== null && !Array.isArray(v)]. *)
Definition is_object (v : value) : bool :=
  match v with Obj _ => true | _ => false end.

(** What a [throw] carries. *)
Inductive error : Type :=
| Error (message : string)
| TypeError (message : string)
| Raised (v : value).

End Js.

(** ** Declarations of LedgerLiveApiSdk.types *)

Inductive ExchangeType : Type := Swap | Buy | Fund.

Definition ExchangeType_value (t : ExchangeType) : string :=
  match t with Swap => "swap" | Buy => "buy" | Fund => "fund" end.

Inductive FeesLevel : Type := Low | Standard | High.

Definition FeesLevel_value (l : FeesLevel) : string :=
  match l with Low => "low" | Standard => "standard" | High => "high" end.

Inductive DeviceModel : Type := Blue | NanoS | NanoX.

Definition DeviceModel_value (m : DeviceModel) : string :=
  match m with Blue => "blue" | NanoS => "nanoS" | NanoX => "nanoX" end.

Record RequestAccountParams : Type := {
  currencies : option (list string);
  allowAddAccount : option bool
}.

Record ListCurrenciesParams : Type := {
  name : option string;
  ticker : option string
}.

Record SignTransactionParams : Type := {
  useApp : option string
}.

Record ExchangePayload : Type := {
  email : string;
  accountName : string;
  inCurrency : string;
  inAmount : string;
  inAddress : string;
  outCurrency : option string;
  outAmount : option string;
  outAddress : option string;
  nonce : string
}.

Record EcdsaSignature : Type := {
  r : list Byte.byte;
  s : list Byte.byte
}.

Record EstimatedFees : Type := {
  low : Z;
  standard : Z;
  high : Z
}.

Record ApplicationDetails : Type := {
  app_name : string;
  app_version : string
}.

Record DeviceDetails : Type := {
  modelId : DeviceModel;
  version : string
}.

(** The runtime object of a typed parameter record: an optional property that
    is absent is simply not a field of the object. *)
Definition optional_field {A : Type} (key : string) (enc : A -> Js.value)
    (o : option A) : list (string * Js.value) :=
  match o with
  | Some a => [(key, enc a)]
  | None => []
  end.

Definition RequestAccountParams_object (p : RequestAccountParams) : Js.value :=
  Js.Obj (optional_field "currencies" (fun l => Js.Arr (map Js.Str l)) (currencies p)
          ++ optional_field "allowAddAccount" Js.Bool (allowAddAccount p)).

Definition ListCurrenciesParams_object (p : ListCurrenciesParams) : Js.value :=
  Js.Obj (optional_field "name" Js.Str (name p)
          ++ optional_field "ticker" Js.Str (ticker p)).

Definition SignTransactionParams_object (p : SignTransactionParams) : Js.value :=
  Js.Obj (optional_field "useApp" Js.Str (useApp p)).

(** An optional argument [params?: T]: left out, it is [undefined]. *)
Definition optional_argument {A : Type} (enc : A -> Js.value) (o : option A)
    : Js.value :=
  match o with
  | Some a => enc a
  | None => Js.Undefined
  end.

(** ** The instance, its collaborators and the trace *)

(** A [JSONRPCServerAndClient] object.  [session_id] is its identity (two
    [new] never give the same object); [session_transport] is the transport
    its client's send callback [(payload) => this.transport.send(payload)]
    hands payloads to. *)
Record Session : Type := {
  session_id : nat;
  session_transport : nat
}.

Inductive Level : Type := level_error | level_warn | level_log.

Inductive LogArg : Type :=
| ArgValue (v : Js.value)
| ArgTransport (t : nat).

(** Everything the instance does to its collaborators, in order. *)
Inductive Event : Type :=
| Logged (level : Level) (message : string) (args : list LogArg)
| TransportConnect (t : nat)
| TransportDisconnect (t : nat)
| TransportSend (t : nat) (payload : Js.value)
| EngineRequest (session : Session) (method : string)
    (params clientParams : Js.value).

(** How a call ends: it returns (an [async] method resolves), it throws (an
    [async] method rejects), or it awaits something that never settles. *)
Inductive Completion (A : Type) : Type :=
| Normal (a : A)
| Throw (e : Js.error)
| Suspended.

Arguments Normal {A} a.
Arguments Throw {A} e.
Arguments Suspended {A}.

Definition Completion_map {A B : Type} (f : A -> B) (c : Completion A)
    : Completion B :=
  match c with
  | Normal a => Normal (f a)
  | Throw e => Throw e
  | Suspended => Suspended
  end.

(** The fields of a [LedgerLiveApi] instance and of its transport that the
    class writes, the allocation counter for sessions, and the trace. *)
Record Facade : Type := {
  transport : nat;                       (* this.transport, an object identity *)
  serverAndClient : option Session;      (* this.serverAndClient *)
  onMessage : option Session;            (* this.transport.onMessage: the
                                            session whose receiveAndSend it calls *)
  allocated : nat;                       (* sessions created so far *)
  trace : list Event
}.

(** [new LedgerLiveApi(transport, logger)]. *)
Definition constructor (t : nat) : Facade :=
  {| transport := t; serverAndClient := None; onMessage := None;
     allocated := 0; trace := [] |}.

(** The answers of the collaborators.  Each sees the trace at the moment it is
    called.
    - [env_connect]: [Some e] when [Transport.connect()] throws [e];
    - [env_disconnect]: how awaiting [Transport.disconnect()] ends;
    - [env_request]: what [JSONRPCServerAndClient.request] does: the payloads
      its client hands to its send callback, and how the returned promise
      settles. *)
Record Environment : Type := {
  env_connect : list Event -> option Js.error;
  env_disconnect : list Event -> Completion unit;
  env_request : Session -> string -> Js.value -> Js.value -> list Event ->
                list Js.value * Completion Js.value
}.

(** ** The monad of the methods *)

Definition M (A : Type) : Type := Facade -> Completion A * Facade.

Definition ret {A : Type} (a : A) : M A := fun w => (Normal a, w).

Definition throw {A : Type} (e : Js.error) : M A := fun w => (Throw e, w).

Definition bind {A B : Type} (m : M A) (k : A -> M B) : M B :=
  fun w =>
    match m w with
    | (Normal a, w') => k a w'
    | (Throw e, w') => (Throw e, w')
    | (Suspended, w') => (Suspended, w')
    end.

(** [try { m } catch (error) { h error }]. *)
Definition try_catch {A : Type} (m : M A) (h : Js.error -> M A) : M A :=
  fun w =>
    match m w with
    | (Throw e, w') => h e w'
    | other => other
    end.

Declare Scope facade_scope.
Delimit Scope facade_scope with facade.
Notation "x <- m ;; k" := (bind m (fun x => k))
  (at level 61, m at next level, right associativity) : facade_scope.
Notation "m ;; k" := (bind m (fun _ => k))
  (at level 61, right associativity) : facade_scope.
Open Scope facade_scope.

(** The instance with [es] added at the end of its trace. *)
Definition extend (w : Facade) (es : list Event) : Facade :=
  {| transport := transport w; serverAndClient := serverAndClient w;
     onMessage := onMessage w; allocated := allocated w;
     trace := trace w ++ es |}.

Definition records (es : list Event) : M unit :=
  fun w => (Normal tt, extend w es).

Definition record (e : Event) : M unit := records [e].

Definition get_serverAndClient : M (option Session) :=
  fun w => (Normal (serverAndClient w), w).

Definition get_transport : M nat :=
  fun w => (Normal (transport w), w).

Definition set_serverAndClient (o : option Session) : M unit :=
  fun w =>
    (Normal tt,
     {| transport := transport w; serverAndClient := o;
        onMessage := onMessage w; allocated := allocated w;
        trace := trace w |}).

Definition set_onMessage (o : option Session) : M unit :=
  fun w =>
    (Normal tt,
     {| transport := transport w; serverAndClient := serverAndClient w;
        onMessage := o; allocated := allocated w;
        trace := trace w |}).

(** [new JSONRPCServerAndClient(new JSONRPCServer(), new JSONRPCClient(...))]:
    a new object, whose client sends through [this.transport]. *)
Definition new_JSONRPCServerAndClient : M Session :=
  fun w =>
    (Normal {| session_id := allocated w; session_transport := transport w |},
     {| transport := transport w; serverAndClient := serverAndClient w;
        onMessage := onMessage w; allocated := S (allocated w);
        trace := trace w |}).

(** Modelled from the spec: the [Logger] of [./logger], which is not part of
    the sources at hand.  Its three methods [error], [warn] and [log] observe
    and return: they never throw and never alter control flow. *)
Definition logger (level : Level) (message : string) (args : list LogArg)
    : M unit :=
  record (Logged level message args).

(** ** The class *)

(** Modelled from the spec: the functions of [./serializers], which the class
    imports and which convert between the wire form (a JSON value) and the
    domain types of [./types]; the spec has them as pure functions.  The
    domain types themselves are left open. *)
Class Serializers (Account Transaction SignedTransaction : Type) : Type := {
  deserializeAccount : Js.value -> Account;
  serializeTransaction : Transaction -> Js.value;
  deserializeSignedTransaction : Js.value -> SignedTransaction;
  serializeSignedTransaction : SignedTransaction -> Js.value
}.

(** [raw.map(f)] on a value that came off the wire: only an array has a
    [map] method. *)
Definition Array_map {A : Type} (f : Js.value -> A) (raw : Js.value)
    : M (list A) :=
  match raw with
  | Js.Arr items => ret (map f items)
  | Js.Undefined | Js.Null =>
      throw (Js.TypeError "Cannot read properties of undefined (reading 'map')")
  | _ => throw (Js.TypeError "map is not a function")
  end.

Section LedgerLiveApi.

Context {Account Transaction SignedTransaction DeviceBridge : Type}.
Context {serializers : Serializers Account Transaction SignedTransaction}.
Variable env : Environment.

(** [this.transport.connect()]. *)
Definition Transport_connect : M unit :=
  fun w =>
    match env_connect env (trace w) with
    | None => record (TransportConnect (transport w)) w
    | Some e => (record (TransportConnect (transport w)) ;; throw e) w
    end.

(** [await this.transport.disconnect()]. *)
Definition Transport_disconnect : M unit :=
  fun w =>
    (record (TransportDisconnect (transport w)) ;;
     fun w' => (env_disconnect env (trace w), w')) w.

(** [await session.request(method, params, clientParams)]: the engine is
    entered, its client sends what it sends through the transport the
    session is bound to, and the promise settles as the engine decides. *)
Definition JSONRPCServerAndClient_request (session : Session)
    (method : string) (params clientParams : Js.value) : M Js.value :=
  fun w =>
    let answer := env_request env session method params clientParams (trace w) in
    (record (EngineRequest session method params clientParams) ;;
     records (map (TransportSend (session_transport session)) (fst answer)) ;;
     fun w' => (snd answer, w')) w.

(** Lines 48-63. *)
Definition _request (method : string) (params clientParams : Js.value)
    : M Js.value :=
  current <- get_serverAndClient ;;
  match current with
  | None =>
      logger level_error "not connected" [ArgValue (Js.Str method)] ;;
      throw (Js.Error "Ledger Live API not connected")
  | Some session =>
      logger level_log ("request - " ++ method)
        [ArgValue params; ArgValue clientParams] ;;
      try_catch
        (result <- JSONRPCServerAndClient_request session method params
                     clientParams ;;
         logger level_log ("response - " ++ method)
           [ArgValue params; ArgValue clientParams] ;;
         ret result)
        (fun error =>
           logger level_warn ("error - " ++ method)
             [ArgValue params; ArgValue clientParams] ;;
           throw error)
  end.

(** Lines 68-78. *)
Definition connect : M unit :=
  session <- new_JSONRPCServerAndClient ;;
  set_onMessage (Some session) ;;
  Transport_connect ;;
  set_serverAndClient (Some session) ;;
  t <- get_transport ;;
  logger level_log "connected" [ArgTransport t].

(** Lines 83-87. *)
Definition disconnect : M unit :=
  set_serverAndClient None ;;
  Transport_disconnect ;;
  t <- get_transport ;;
  logger level_log "disconnected" [ArgTransport t].

(** Lines 97-101. *)
Definition requestAccount (params : Js.value) : M Account :=
  rawAccount <- _request "account.request" (Js.or params (Js.Obj []))
                  Js.Undefined ;;
  ret (deserializeAccount rawAccount).

(** Lines 108-112. *)
Definition listAccounts : M (list Account) :=
  rawAccounts <- _request "account.list" Js.Undefined Js.Undefined ;;
  Array_map deserializeAccount rawAccounts.

(** Lines 120-122. *)
Definition listCurrencies (params : Js.value) : M Js.value :=
  _request "currency.list" (Js.or params (Js.Obj [])) Js.Undefined.

(** Lines 130-132. *)
Definition receive (accountId : string) : M Js.value :=
  _request "account.receive" (Js.Obj [("accountId", Js.Str accountId)])
    Js.Undefined.

(** Lines 142-150. *)
Definition signTransaction (accountId : string) (transaction : Transaction)
    (params : Js.value) : M SignedTransaction :=
  rawSignedTransaction <-
    _request "transaction.sign"
      (Js.Obj [("accountId", Js.Str accountId);
               ("transaction", serializeTransaction transaction);
               ("params", Js.or params (Js.Obj []))])
      Js.Undefined ;;
  ret (deserializeSignedTransaction rawSignedTransaction).

(** Lines 159-164. *)
Definition broadcastSignedTransaction (accountId : string)
    (signedTransaction : SignedTransaction) : M Js.value :=
  _request "transaction.broadcast"
    (Js.Obj [("accountId", Js.Str accountId);
             ("signedTransaction",
              serializeSignedTransaction signedTransaction)])
    Js.Undefined.

(** Lines 173-245: the operations that are declared and not written yet. *)
Definition not_implemented : Js.error :=
  Js.Error "Function is not implemented yet".

Definition estimateTransactionFees (accountId : string)
    (transaction : Transaction) : M EstimatedFees :=
  throw not_implemented.

Definition synchronizeAccount (accountId : string) : M Account :=
  throw not_implemented.

Definition initExchange (exchangeType : ExchangeType) (partnerName : string)
    : M string :=
  throw not_implemented.

Definition completeExchange (exchangePayload : ExchangePayload)
    (payloadSignature : EcdsaSignature) (txFeesLevel : FeesLevel) : M unit :=
  throw not_implemented.

Definition getDeviceInfo : M DeviceDetails :=
  throw not_implemented.

Definition listApps : M (list ApplicationDetails) :=
  throw not_implemented.

Definition bridgeApp {Result : Type} (appName : string)
    (handler : DeviceBridge -> M Result) : M Result :=
  throw not_implemented.

Definition bridgeDashboard {Result : Type}
    (handler : DeviceBridge -> M Result) : M Result :=
  throw not_implemented.

(** *** Scripts of calls

    A caller's use of an instance: one method call after the other, each
    one's result dropped, whatever the outcome of the one before. *)
Inductive Call : Type :=
| call_request (method : string) (params clientParams : Js.value)
| call_connect
| call_disconnect
| call_requestAccount (params : Js.value)
| call_listAccounts
| call_listCurrencies (params : Js.value)
| call_receive (accountId : string)
| call_signTransaction (accountId : string) (transaction : Transaction)
    (params : Js.value)
| call_broadcastSignedTransaction (accountId : string)
    (signedTransaction : SignedTransaction)
| call_estimateTransactionFees (accountId : string)
    (transaction : Transaction)
| call_synchronizeAccount (accountId : string)
| call_initExchange (exchangeType : ExchangeType) (partnerName : string)
| call_completeExchange (exchangePayload : ExchangePayload)
    (payloadSignature : EcdsaSignature) (txFeesLevel : FeesLevel)
| call_getDeviceInfo
| call_listApps
| call_bridgeApp (appName : string) (handler : DeviceBridge -> M Js.value)
| call_bridgeDashboard (handler : DeviceBridge -> M Js.value).

Definition discard {A : Type} (m : M A) : M unit := m ;; ret tt.

Definition perform (c : Call) : M unit :=
  match c with
  | call_request method params clientParams =>
      discard (_request method params clientParams)
  | call_connect => connect
  | call_disconnect => disconnect
  | call_requestAccount params => discard (requestAccount params)
  | call_listAccounts => discard listAccounts
  | call_listCurrencies params => discard (listCurrencies params)
  | call_receive accountId => discard (receive accountId)
  | call_signTransaction accountId transaction params =>
      discard (signTransaction accountId transaction params)
  | call_broadcastSignedTransaction accountId signedTransaction =>
      discard (broadcastSignedTransaction accountId signedTransaction)
  | call_estimateTransactionFees accountId transaction =>
      discard (estimateTransactionFees accountId transaction)
  | call_synchronizeAccount accountId =>
      discard (synchronizeAccount accountId)
  | call_initExchange exchangeType partnerName =>
      discard (initExchange exchangeType partnerName)
  | call_completeExchange exchangePayload payloadSignature txFeesLevel =>
      completeExchange exchangePayload payloadSignature txFeesLevel
  | call_getDeviceInfo => discard getDeviceInfo
  | call_listApps => discard listApps
  | call_bridgeApp appName handler => discard (bridgeApp appName handler)
  | call_bridgeDashboard handler => discard (bridgeDashboard handler)
  end.

(** The calls that go through [_request]. *)
Definition is_invoke (c : Call) : bool :=
  match c with
  | call_request _ _ _ | call_requestAccount _ | call_listAccounts
  | call_listCurrencies _ | call_receive _ | call_signTransaction _ _ _
  | call_broadcastSignedTransaction _ _ => true
  | _ => false
  end.

Definition is_connect (c : Call) : bool :=
  match c with call_connect => true | _ => false end.

Fixpoint run (calls : list Call) (w : Facade)
    : list (Completion unit) * Facade :=
  match calls with
  | [] => ([], w)
  | c :: rest =>
      let (outcome, w1) := perform c w in
      let (outcomes, w2) := run rest w1 in
      (outcome :: outcomes, w2)
  end.

End LedgerLiveApi.

Arguments Call : clear implicits.

(** ** Reading a trace *)

(** The payloads handed to [Transport.send]. *)
Definition transport_sends (es : list Event) : list Js.value :=
  flat_map (fun e => match e with TransportSend _ p => [p] | _ => [] end) es.

(** The calls into the JSON-RPC engine: method and params. *)
Definition engine_requests (es : list Event) : list (string * Js.value) :=
  flat_map
    (fun e => match e with EngineRequest _ m p _ => [(m, p)] | _ => [] end) es.

Definition is_TransportConnect (e : Event) : bool :=
  match e with TransportConnect _ => true | _ => false end.

(** The error of lines 50-51. *)
Definition not_connected : Js.error := Js.Error "Ledger Live API not connected".

(** The event the engine's answer is logged with, if it settles. *)
Definition settlement_log (method : string) (params clientParams : Js.value)
    (c : Completion Js.value) : list Event :=
  match c with
  | Normal _ =>
      [Logged level_log ("response - " ++ method)
         [ArgValue params; ArgValue clientParams]]
  | Throw _ =>
      [Logged level_warn ("error - " ++ method)
         [ArgValue params; ArgValue clientParams]]
  | Suspended => []
  end.

(** The instance at the moment the engine is entered: the request is logged. *)
Definition request_logged (method : string) (params clientParams : Js.value)
    (w : Facade) : Facade :=
  extend w [Logged level_log ("request - " ++ method)
              [ArgValue params; ArgValue clientParams]].

(** Sessions are only ever made by [new_JSONRPCServerAndClient]: the ones an
    instance holds were counted when they were made. *)
Definition counted (w : Facade) (o : option Session) : Prop :=
  match o with
  | Some session => session_id session < allocated w
  | None => True
  end.

Definition well_formed (w : Facade) : Prop :=
  counted w (serverAndClient w) /\ counted w (onMessage w).

(** ** Sample collaborators *)

(** The JSON-RPC 2.0 request envelope. *)
Definition envelope (id : Z) (method : string) (params : Js.value) : Js.value :=
  Js.Obj [("jsonrpc", Js.Str "2.0"); ("id", Js.Num id);
          ("method", Js.Str method); ("params", params)].

(** A host that answers each method in a fixed way: two accounts for
    [account.list], a refusal for [account.request], no answer at all for
    [account.receive], and an acknowledgement for the rest. *)
Definition sample_answer (method : string) : Completion Js.value :=
  if String.eqb method "account.list" then
    Normal (Js.Arr [Js.Obj [("id", Js.Str "acc-1")];
                    Js.Obj [("id", Js.Str "acc-2")]])
  else if String.eqb method "account.request" then
    Throw (Js.Error "User denied")
  else if String.eqb method "account.receive" then
    Suspended
  else Normal (Js.Str "0xABC").

Definition sample_env : Environment :=
  {| env_connect := fun _ => None;
     env_disconnect := fun _ => Normal tt;
     env_request := fun _ method params _ history =>
       ([envelope (Z.of_nat (S (length (engine_requests history)))) method params],
        sample_answer method) |}.

(** A transport that refuses to be connected twice and that cannot be
    disconnected before it was connected; its engine is the sample one. *)
Definition strict_env : Environment :=
  {| env_connect := fun history =>
       if existsb is_TransportConnect history
       then Some (Js.Error "transport is already connected")
       else None;
     env_disconnect := fun history =>
       if existsb is_TransportConnect history
       then Normal tt
       else Throw (Js.TypeError
                     "Cannot read properties of undefined (reading 'close')");
     env_request := env_request sample_env |}.

(** A transport that cannot be reached at all. *)
Definition offline_env : Environment :=
  {| env_connect := fun _ => Some (Js.Error "transport unavailable");
     env_disconnect := fun _ => Normal tt;
     env_request := env_request sample_env |}.

(** Serializers over plain JSON values that wrap what they are given. *)
#[local] Instance sample_serializers : Serializers Js.value Js.value Js.value :=
  {| deserializeAccount := fun raw => Js.Obj [("account", raw)];
     serializeTransaction := fun tx => Js.Obj [("rawTransaction", tx)];
     deserializeSignedTransaction := fun raw => Js.Obj [("signed", raw)];
     serializeSignedTransaction := fun stx => Js.Obj [("rawSigned", stx)] |}.

(** An instance on transport 1, connected once to the sample host. *)
Definition sample_connected : Facade := snd (connect sample_env (constructor 1)).

Definition sample_session : Session :=
  {| session_id := 0; session_transport := 1 |}.

(** ** More readers of calls and traces *)

Definition is_disconnect {Transaction SignedTransaction DeviceBridge : Type}
    (c : Call Transaction SignedTransaction DeviceBridge) : bool :=
  match c with call_disconnect => true | _ => false end.

Definition is_TransportDisconnect (e : Event) : bool :=
  match e with TransportDisconnect _ => true | _ => false end.

(** The transport an event is a call to, if it is one. *)
Definition event_transport (e : Event) : option nat :=
  match e with
  | TransportConnect t | TransportDisconnect t | TransportSend t _ => Some t
  | Logged _ _ _ | EngineRequest _ _ _ _ => None
  end.

Definition on_transport (t : nat) (e : Event) : Prop :=
  forall t' : nat, event_transport e = Some t' -> t' = t.

(** An instance that only ever talked to transport [t], and whose session,
    if it holds one, sends through [t]. *)
Definition own_transport (t : nat) (w : Facade) : Prop :=
  transport w = t
  /\ Forall (on_transport t) (trace w)
  /\ (forall session : Session,
        serverAndClient w = Some session -> session_transport session = t).

Definition count_events (f : Event -> bool) (es : list Event) : nat :=
  length (filter f es).

Section Wire.

Context {Account Transaction SignedTransaction DeviceBridge : Type}.
Context {serializers : Serializers Account Transaction SignedTransaction}.

(** What a call hands to [_request], for the calls that go through it:
    method, params and clientParams, as lines 98, 109, 121, 131, 143-147 and
    160-163 build them. *)
Definition wire_request (c : Call Transaction SignedTransaction DeviceBridge)
    : option (string * Js.value * Js.value) :=
  match c with
  | call_request method params clientParams =>
      Some (method, params, clientParams)
  | call_requestAccount params =>
      Some ("account.request", Js.or params (Js.Obj []), Js.Undefined)
  | call_listAccounts => Some ("account.list", Js.Undefined, Js.Undefined)
  | call_listCurrencies params =>
      Some ("currency.list", Js.or params (Js.Obj []), Js.Undefined)
  | call_receive accountId =>
      Some ("account.receive", Js.Obj [("accountId", Js.Str accountId)],
            Js.Undefined)
  | call_signTransaction accountId transaction params =>
      Some ("transaction.sign",
            Js.Obj [("accountId", Js.Str accountId);
                    ("transaction", serializeTransaction transaction);
                    ("params", Js.or params (Js.Obj []))],
            Js.Undefined)
  | call_broadcastSignedTransaction accountId signedTransaction =>
      Some ("transaction.broadcast",
            Js.Obj [("accountId", Js.Str accountId);
                    ("signedTransaction",
                     serializeSignedTransaction signedTransaction)],
            Js.Undefined)
  | _ => None
  end.

(** The method and params of the calls of a script that go through
    [_request], in the order of the script. *)
Definition wire_requests
    (calls : list (Call Transaction SignedTransaction DeviceBridge))
    : list (string * Js.value) :=
  flat_map
    (fun c =>
       match wire_request c with
       | Some (method, params, _) => [(method, params)]
       | None => []
       end)
    calls.

End Wire.

(** A host whose engine hands the request envelope to the transport and then
    settles every request in the same way. *)
Definition uniform_env (answer : Completion Js.value) : Environment :=
  {| env_connect := fun _ => None;
     env_disconnect := fun _ => Normal tt;
     env_request := fun _ method params _ history =>
       ([envelope (Z.of_nat (S (length (engine_requests history)))) method params],
        answer) |}.

(** * Properties *)

Open Scope list_scope.

(** ** The trace only grows *)

Lemma extend_nil (w : Facade) : extend w [] = w.
Proof. destruct w; unfold extend; simpl. now rewrite app_nil_r. Qed.

Lemma extend_extend (w : Facade) (es fs : list Event) :
  extend (extend w es) fs = extend w (es ++ fs).
Proof. unfold extend; simpl. now rewrite app_assoc. Qed.

Lemma transport_sends_app (es fs : list Event) :
  transport_sends (es ++ fs) = transport_sends es ++ transport_sends fs.
Proof. unfold transport_sends. apply flat_map_app. Qed.

Lemma engine_requests_app (es fs : list Event) :
  engine_requests (es ++ fs) = engine_requests es ++ engine_requests fs.
Proof. unfold engine_requests. apply flat_map_app. Qed.

Lemma engine_requests_sends (t : nat) (payloads : list Js.value) :
  engine_requests (map (TransportSend t) payloads) = [].
Proof. induction payloads as [|p ps IH]; simpl; auto. Qed.

Lemma engine_requests_settlement (method : string) (params cp : Js.value)
    (c : Completion Js.value) :
  engine_requests (settlement_log method params cp c) = [].
Proof. destruct c; reflexivity. Qed.

(** ** The two branches of [_request] *)

Section Request.

Variable env : Environment.
Variables (method : string) (params clientParams : Js.value).

(** No session: one line in the error log, and the throw. *)
Lemma _request_without_session (w : Facade) :
  serverAndClient w = None ->
  _request env method params clientParams w =
  (Throw not_connected,
   extend w [Logged level_error "not connected" [ArgValue (Js.Str method)]]).
Proof.
  intros Hnone.
  unfold _request, bind, get_serverAndClient.
  rewrite Hnone. reflexivity.
Qed.

(** A session: the request is logged, the engine is entered and sends what
    it sends, and its settlement is logged and handed on as it is. *)
Lemma _request_with_session (w : Facade) (session : Session) :
  serverAndClient w = Some session ->
  let answer :=
    env_request env session method params clientParams
      (trace (request_logged method params clientParams w)) in
  _request env method params clientParams w =
  (snd answer,
   extend w
     ([Logged level_log ("request - " ++ method)
         [ArgValue params; ArgValue clientParams];
       EngineRequest session method params clientParams]
      ++ map (TransportSend (session_transport session)) (fst answer)
      ++ settlement_log method params clientParams (snd answer))).
Proof.
  intros Hsome answer.
  unfold _request, bind, get_serverAndClient.
  rewrite Hsome.
  unfold try_catch, bind, logger, record, records,
    JSONRPCServerAndClient_request, bind, record, records, ret, throw.
  fold (request_logged method params clientParams w). fold answer.
  destruct (snd answer) as [v|e|] eqn:Hanswer;
    simpl; rewrite ?extend_extend; unfold request_logged;
    rewrite ?extend_extend; simpl; rewrite ?app_nil_r; reflexivity.
Qed.

(** What the engine itself does, seen from the state it is entered in. *)
Lemma engine_outcome (w : Facade) (session : Session) :
  fst (JSONRPCServerAndClient_request env session method params clientParams
         (request_logged method params clientParams w)) =
  snd (env_request env session method params clientParams
         (trace (request_logged method params clientParams w))).
Proof. reflexivity. Qed.

End Request.

(** ** Calls without a session *)

(** C1. Whatever the method name and the params, [_request] on an instance
    that holds no session (never connected, or disconnected since) is
    rejected with the error "Ledger Live API not connected"; the only thing it
    does before is to log "not connected" with the method name at error
    level: no payload is handed to [Transport.send], the JSON-RPC engine is
    not entered, and the instance still holds no session. *)
Theorem invoke_without_session_fails_before_transport :
  forall (env : Environment) (method : string) (params clientParams : Js.value)
         (w : Facade),
    serverAndClient w = None ->
    let after := _request env method params clientParams w in
    fst after = Throw (Js.Error "Ledger Live API not connected")
    /\ trace (snd after) =
       trace w ++ [Logged level_error "not connected"
                     [ArgValue (Js.Str method)]]
    /\ transport_sends (trace (snd after)) = transport_sends (trace w)
    /\ engine_requests (trace (snd after)) = engine_requests (trace w)
    /\ serverAndClient (snd after) = None.
Proof.
  intros env method params clientParams w Hnone after.
  unfold after.
  rewrite (_request_without_session env method params clientParams w Hnone).
  cbn [fst snd extend trace serverAndClient].
  rewrite transport_sends_app, engine_requests_app.
  cbn. rewrite !app_nil_r. auto.
Qed.

Lemma invoke_without_session_fails_before_transport_witness :
  let after :=
    _request sample_env "account.receive"
      (Js.Obj [("accountId", Js.Str "acc-1")]) Js.Undefined (constructor 1) in
  fst after = Throw (Js.Error "Ledger Live API not connected")
  /\ trace (snd after) =
     trace (constructor 1)
     ++ [Logged level_error "not connected"
           [ArgValue (Js.Str "account.receive")]]
  /\ transport_sends (trace (snd after)) = transport_sends (trace (constructor 1))
  /\ engine_requests (trace (snd after)) = engine_requests (trace (constructor 1))
  /\ serverAndClient (snd after) = None.
Proof.
  apply (invoke_without_session_fails_before_transport sample_env
           "account.receive" (Js.Obj [("accountId", Js.Str "acc-1")])
           Js.Undefined (constructor 1)).
  reflexivity.
Defined.

(** ** Settlement of a call *)

(** C7. With a session, [_request] settles exactly as the underlying
    [session.request] does.  When that one rejects with [e], [_request] logs
    "error - <method>" at warning level and then rejects with the same [e];
    when it resolves with [v], [_request] logs "response - <method>" and
    resolves with the same [v]. *)
Theorem invoke_settles_as_the_request :
  forall (env : Environment) (method : string) (params clientParams : Js.value)
         (w : Facade) (session : Session),
    serverAndClient w = Some session ->
    let underlying :=
      JSONRPCServerAndClient_request env session method params clientParams
        (request_logged method params clientParams w) in
    let after := _request env method params clientParams w in
    fst after = fst underlying
    /\ (forall e : Js.error,
          fst underlying = Throw e ->
          fst after = Throw e
          /\ trace (snd after) =
             trace (snd underlying)
             ++ [Logged level_warn ("error - " ++ method)
                   [ArgValue params; ArgValue clientParams]])
    /\ (forall v : Js.value,
          fst underlying = Normal v ->
          fst after = Normal v
          /\ trace (snd after) =
             trace (snd underlying)
             ++ [Logged level_log ("response - " ++ method)
                   [ArgValue params; ArgValue clientParams]]).
Proof.
  intros env method params clientParams w session Hsome underlying after.
  unfold after.
  rewrite (_request_with_session env method params clientParams w session Hsome).
  unfold underlying.
  rewrite engine_outcome.
  set (answer := env_request env session method params clientParams
                   (trace (request_logged method params clientParams w))).
  cbn [fst snd].
  assert (Htrace :
    forall tail,
      trace (extend w
               ([Logged level_log ("request - " ++ method)
                   [ArgValue params; ArgValue clientParams];
                 EngineRequest session method params clientParams]
                ++ map (TransportSend (session_transport session)) (fst answer)
                ++ tail)) =
      trace (snd (JSONRPCServerAndClient_request env session method params
                    clientParams (request_logged method params clientParams w)))
      ++ tail).
  { intros tail.
    unfold JSONRPCServerAndClient_request, bind, record, records.
    fold answer. cbn [fst snd]. unfold request_logged.
    rewrite !extend_extend. cbn [extend trace].
    rewrite <- !app_assoc. reflexivity. }
  split; [reflexivity|].
  split.
  - intros e He. rewrite He. split; [reflexivity|].
    cbn [settlement_log]. apply Htrace.
  - intros v Hv. rewrite Hv. split; [reflexivity|].
    cbn [settlement_log]. apply Htrace.
Qed.

Lemma invoke_settles_as_the_request_witness :
  let after :=
    _request sample_env "account.request" (Js.Obj []) Js.Undefined
      sample_connected in
  serverAndClient sample_connected = Some sample_session
  /\ fst after = Throw (Js.Error "User denied")
  /\ trace (snd after) =
     trace (snd (JSONRPCServerAndClient_request sample_env sample_session
                   "account.request" (Js.Obj []) Js.Undefined
                   (request_logged "account.request" (Js.Obj []) Js.Undefined
                      sample_connected)))
     ++ [Logged level_warn "error - account.request"
           [ArgValue (Js.Obj []); ArgValue Js.Undefined]].
Proof.
  split; [reflexivity|].
  destruct (invoke_settles_as_the_request sample_env "account.request"
              (Js.Obj []) Js.Undefined sample_connected sample_session
              eq_refl) as [_ [Hreject _]].
  apply (Hreject (Js.Error "User denied")).
  reflexivity.
Defined.

(** ** The operations that are not written yet *)

Section Placeholders.

Context {Account Transaction SignedTransaction DeviceBridge Result : Type}.

(** C6. Each of the eight placeholder operations, whatever its arguments
    and whatever the state of the instance (connected or not), is rejected
    with the error "Function is not implemented yet" and leaves the
    instance as it was: nothing is logged, nothing is sent, the session
    field is not touched. *)
Theorem placeholders_always_fail :
  forall (w : Facade) (accountId partnerName appName : string)
         (transaction : Transaction) (exchangeType : ExchangeType)
         (exchangePayload : ExchangePayload)
         (payloadSignature : EcdsaSignature) (txFeesLevel : FeesLevel)
         (handler : DeviceBridge -> M Result),
    let failed (A : Type) : Completion A * Facade :=
      (Throw (Js.Error "Function is not implemented yet"), w) in
    estimateTransactionFees accountId transaction w = failed EstimatedFees
    /\ synchronizeAccount (Account := Account) accountId w = failed Account
    /\ initExchange exchangeType partnerName w = failed string
    /\ completeExchange exchangePayload payloadSignature txFeesLevel w
       = failed unit
    /\ getDeviceInfo w = failed DeviceDetails
    /\ listApps w = failed (list ApplicationDetails)
    /\ bridgeApp appName handler w = failed Result
    /\ bridgeDashboard handler w = failed Result.
Proof.
  intros. unfold failed. repeat split.
Qed.

End Placeholders.

(** ** Connecting *)

Lemma connect_when_transport_returns (env : Environment) (w : Facade) :
  env_connect env (trace w) = None ->
  let session :=
    {| session_id := allocated w; session_transport := transport w |} in
  connect env w =
  (Normal tt,
   {| transport := transport w;
      serverAndClient := Some session;
      onMessage := Some session;
      allocated := S (allocated w);
      trace := trace w ++ [TransportConnect (transport w);
                           Logged level_log "connected"
                             [ArgTransport (transport w)]] |}).
Proof.
  intros Hret session.
  unfold connect, bind, new_JSONRPCServerAndClient, set_onMessage,
    Transport_connect.
  cbn [trace]. rewrite Hret.
  unfold record, records, set_serverAndClient, get_transport, logger,
    record, records, extend.
  cbn. rewrite <- app_assoc. reflexivity.
Qed.

Lemma connect_when_transport_throws (env : Environment) (w : Facade)
    (e : Js.error) :
  env_connect env (trace w) = Some e ->
  connect env w =
  (Throw e,
   {| transport := transport w;
      serverAndClient := serverAndClient w;
      onMessage :=
        Some {| session_id := allocated w; session_transport := transport w |};
      allocated := S (allocated w);
      trace := trace w ++ [TransportConnect (transport w)] |}).
Proof.
  intros Hthrow.
  unfold connect, bind, new_JSONRPCServerAndClient, set_onMessage,
    Transport_connect.
  cbn [trace]. rewrite Hthrow.
  reflexivity.
Qed.

(** C8. When [Transport.connect()] throws, [connect()] throws the same error
    after having called the transport, and the session field is left as it
    was; on an instance that held no session, every later [_request] is
    still rejected as not connected. *)
Theorem connect_installs_nothing_on_transport_failure :
  forall (env : Environment) (w : Facade) (e : Js.error),
    env_connect env (trace w) = Some e ->
    let after := connect env w in
    fst after = Throw e
    /\ trace (snd after) = trace w ++ [TransportConnect (transport w)]
    /\ serverAndClient (snd after) = serverAndClient w
    /\ (serverAndClient w = None ->
        forall (method : string) (params clientParams : Js.value),
          fst (_request env method params clientParams (snd after)) =
          Throw (Js.Error "Ledger Live API not connected")).
Proof.
  intros env w e Hthrow after. unfold after.
  rewrite (connect_when_transport_throws env w e Hthrow).
  cbn [fst snd trace serverAndClient].
  repeat split.
  intros Hnone method params clientParams.
  rewrite _request_without_session; [reflexivity | exact Hnone].
Qed.

Lemma connect_installs_nothing_on_transport_failure_witness :
  let after := connect offline_env (constructor 1) in
  fst after = Throw (Js.Error "transport unavailable")
  /\ trace (snd after) = trace (constructor 1) ++ [TransportConnect 1]
  /\ serverAndClient (snd after) = None
  /\ (serverAndClient (constructor 1) = None ->
      forall (method : string) (params clientParams : Js.value),
        fst (_request offline_env method params clientParams (snd after)) =
        Throw (Js.Error "Ledger Live API not connected")).
Proof.
  apply (connect_installs_nothing_on_transport_failure offline_env
           (constructor 1) (Js.Error "transport unavailable")).
  reflexivity.
Defined.

(** C2, as the claim states it, fails on a transport that refuses a second
    [connect()]: the first [connect()] installs session 0, the second one
    throws what the transport throws, and session 0 is still the one
    installed. *)
Lemma reconnect_throws_when_transport_refuses :
  let once := connect strict_env (constructor 1) in
  let twice := connect strict_env (snd once) in
  fst once = Normal tt
  /\ serverAndClient (snd once) = Some sample_session
  /\ fst twice = Throw (Js.Error "transport is already connected")
  /\ serverAndClient (snd twice) = Some sample_session.
Proof. repeat split. Qed.

(** C2, amended. [connect()] on an instance that already holds a session is
    not guarded: it registers the callback of a session it has just made,
    calls [Transport.connect()] again, and ends as that call ends.  When the
    transport returns, [connect()] returns, and the session field holds the
    new session, which is not the one held before and sends through the same
    transport.  When the transport throws, [connect()] throws the same error
    right after the call, and the session held before stays in place. *)
Theorem reconnect_replaces_session :
  forall (env : Environment) (w : Facade) (current : Session),
    serverAndClient w = Some current ->
    well_formed w ->
    let after := connect env w in
    let fresh :=
      {| session_id := allocated w; session_transport := transport w |} in
    fst after =
      match env_connect env (trace w) with
      | None => Normal tt
      | Some e => Throw e
      end
    /\ onMessage (snd after) = Some fresh
    /\ (exists tail,
          trace (snd after) = trace w ++ TransportConnect (transport w) :: tail)
    /\ (env_connect env (trace w) = None ->
        serverAndClient (snd after) = Some fresh
        /\ fresh <> current
        /\ session_transport fresh = transport (snd after)
        /\ trace (snd after) =
           trace w ++ [TransportConnect (transport w);
                       Logged level_log "connected"
                         [ArgTransport (transport w)]])
    /\ (forall e : Js.error,
          env_connect env (trace w) = Some e ->
          fst after = Throw e
          /\ serverAndClient (snd after) = Some current
          /\ trace (snd after) = trace w ++ [TransportConnect (transport w)]).
Proof.
  intros env w current Hsome [Hcounted _] after fresh. unfold after.
  rewrite Hsome in Hcounted. cbn [counted] in Hcounted.
  destruct (env_connect env (trace w)) as [e|] eqn:Hconnect.
  - rewrite (connect_when_transport_throws env w e Hconnect).
    cbn [fst snd onMessage trace serverAndClient].
    split; [reflexivity|]. split; [reflexivity|].
    split; [exists []; reflexivity|].
    split; [discriminate|].
    intros e' [= <-].
    split; [reflexivity|]. split; [exact Hsome | reflexivity].
  - rewrite (connect_when_transport_returns env w Hconnect).
    cbn [fst snd onMessage trace serverAndClient transport].
    split; [reflexivity|]. split; [reflexivity|].
    split; [eexists; reflexivity|].
    split; [|discriminate].
    intros _.
    split; [reflexivity|]. split; [|split; reflexivity].
    intros Heq. subst current. unfold fresh in Hcounted.
    cbn [session_id] in Hcounted. lia.
Qed.

Lemma reconnect_replaces_session_witness :
  let after := connect sample_env sample_connected in
  let fresh := {| session_id := 1; session_transport := 1 |} in
  fst after = Normal tt
  /\ onMessage (snd after) = Some fresh
  /\ serverAndClient (snd after) = Some fresh
  /\ fresh <> sample_session.
Proof.
  destruct (reconnect_replaces_session sample_env sample_connected
              sample_session eq_refl)
    as [Hend [Hcallback [_ [Hreturns _]]]].
  - split; cbn; lia.
  - destruct (Hreturns eq_refl) as [Hfield [Hfresh _]].
    repeat split; assumption.
Defined.

(** ** Disconnecting *)

Lemma disconnect_unfolded (env : Environment) (w : Facade) :
  disconnect env w =
  (env_disconnect env (trace w),
   {| transport := transport w;
      serverAndClient := None;
      onMessage := onMessage w;
      allocated := allocated w;
      trace := trace w
               ++ TransportDisconnect (transport w)
                  :: match env_disconnect env (trace w) with
                     | Normal _ =>
                         [Logged level_log "disconnected"
                            [ArgTransport (transport w)]]
                     | _ => []
                     end |}).
Proof.
  unfold disconnect, bind, set_serverAndClient, Transport_disconnect, bind,
    record, records, get_transport, logger, record, records, extend.
  cbn.
  destruct (env_disconnect env (trace w)) as [[]| |]; cbn;
    rewrite <- ?app_assoc; reflexivity.
Qed.

(** C10, as the claim states it, fails on a transport that throws when it is
    disconnected without having been connected: [disconnect()] on a new
    instance is rejected, and no transition is logged. *)
Lemma disconnect_rejects_when_transport_throws :
  let after := disconnect strict_env (constructor 1) in
  fst after =
    Throw (Js.TypeError "Cannot read properties of undefined (reading 'close')")
  /\ trace (snd after) = [TransportDisconnect 1].
Proof. split; reflexivity. Qed.

(** C10, amended. [disconnect()] has no guard on the session: in every state
    it leaves the instance without a session, calls and awaits
    [Transport.disconnect()], and settles exactly as that call settles.  When
    the transport's call completes, [disconnect()] logs "disconnected" and
    completes; otherwise nothing is logged. *)
Theorem disconnect_in_every_state :
  forall (env : Environment) (w : Facade),
    let after := disconnect env w in
    serverAndClient (snd after) = None
    /\ fst after = env_disconnect env (trace w)
    /\ (exists tail,
          trace (snd after) =
          trace w ++ TransportDisconnect (transport w) :: tail)
    /\ (env_disconnect env (trace w) = Normal tt ->
        fst after = Normal tt
        /\ trace (snd after) =
           trace w ++ [TransportDisconnect (transport w);
                       Logged level_log "disconnected"
                         [ArgTransport (transport w)]])
    /\ (env_disconnect env (trace w) <> Normal tt ->
        trace (snd after) = trace w ++ [TransportDisconnect (transport w)]).
Proof.
  intros env w after. unfold after.
  rewrite disconnect_unfolded. cbn [fst snd serverAndClient trace].
  split; [reflexivity|]. split; [reflexivity|].
  split; [eexists; reflexivity|].
  split.
  - intros Hdone. rewrite Hdone. split; reflexivity.
  - intros Hfails.
    destruct (env_disconnect env (trace w)) as [[]| |];
      [contradiction Hfails | |]; reflexivity.
Qed.

(** ** Results of the facade operations *)

(** A result that is only converted on the way out: same state, converted
    result. *)
Lemma bind_ret {A B : Type} (m : M A) (f : A -> B) (w : Facade) :
  (x <- m ;; ret (f x)) w = (Completion_map f (fst (m w)), snd (m w)).
Proof.
  unfold bind, ret. destruct (m w) as [[a|e|] w']; reflexivity.
Qed.

Lemma bind_Array_map_state {A : Type} (m : M Js.value) (f : Js.value -> A)
    (w : Facade) :
  snd ((raw <- m ;; Array_map f raw) w) = snd (m w).
Proof.
  unfold bind. destruct (m w) as [[raw|e|] w']; try reflexivity.
  destruct raw; reflexivity.
Qed.

(** With a session, a [_request] enters the engine once, with the method and
    the params it was given. *)
Lemma invoke_enters_engine_once (env : Environment) (method : string)
    (params clientParams : Js.value) (w : Facade) (session : Session) :
  serverAndClient w = Some session ->
  exists events,
    trace (snd (_request env method params clientParams w)) = trace w ++ events
    /\ engine_requests events = [(method, params)].
Proof.
  intros Hsome.
  rewrite (_request_with_session env method params clientParams w session Hsome).
  cbn [snd extend trace].
  eexists. split; [reflexivity|].
  rewrite !engine_requests_app, engine_requests_sends,
    engine_requests_settlement.
  reflexivity.
Qed.

Section Facade.

Context {Account Transaction SignedTransaction : Type}.
Context {serializers : Serializers Account Transaction SignedTransaction}.
Variable env : Environment.

(** C4. With a session, [signTransaction] enters the engine once, with the
    method "transaction.sign" and the params object
    [{accountId, transaction, params}] whose [transaction] field is
    [serializeTransaction] of the transaction given; it settles as the
    underlying request does, and when that resolves with [raw] the result
    is [deserializeSignedTransaction raw]. *)
Theorem signTransaction_serializes_and_deserializes :
  forall (w : Facade) (session : Session) (accountId : string)
         (transaction : Transaction) (params : Js.value),
    serverAndClient w = Some session ->
    let sent :=
      Js.Obj [("accountId", Js.Str accountId);
              ("transaction", serializeTransaction transaction);
              ("params", if Js.truthy params then params else Js.Obj [])] in
    let underlying :=
      JSONRPCServerAndClient_request env session "transaction.sign" sent
        Js.Undefined
        (request_logged "transaction.sign" sent Js.Undefined w) in
    let after := signTransaction env accountId transaction params w in
    (exists events,
        trace (snd after) = trace w ++ events
        /\ engine_requests events = [("transaction.sign", sent)])
    /\ fst after = Completion_map deserializeSignedTransaction (fst underlying)
    /\ (forall raw : Js.value,
          fst underlying = Normal raw ->
          fst after = Normal (deserializeSignedTransaction raw)).
Proof.
  intros w session accountId transaction params Hsome sent underlying after.
  assert (Hfst : fst after =
                 Completion_map deserializeSignedTransaction (fst underlying)).
  { unfold after, signTransaction. rewrite bind_ret. cbn [fst].
    rewrite (_request_with_session env _ _ _ w session Hsome).
    reflexivity. }
  split; [|split].
  - unfold after, signTransaction. rewrite bind_ret. cbn [snd].
    apply (invoke_enters_engine_once env "transaction.sign" sent
             Js.Undefined w session Hsome).
  - exact Hfst.
  - intros raw Hraw. rewrite Hfst, Hraw. reflexivity.
Qed.

(** C5. With a session, [listAccounts] enters the engine once, with the
    method "account.list" and no params; when the underlying request
    resolves with an array of N raw records, the result is a list of N
    accounts whose i-th element is [deserializeAccount] of the i-th
    record. *)
Theorem listAccounts_preserves_length_and_order :
  forall (w : Facade) (session : Session) (raws : list Js.value),
    serverAndClient w = Some session ->
    fst (JSONRPCServerAndClient_request env session "account.list"
           Js.Undefined Js.Undefined
           (request_logged "account.list" Js.Undefined Js.Undefined w))
    = Normal (Js.Arr raws) ->
    let after := listAccounts env w in
    (exists events,
        trace (snd after) = trace w ++ events
        /\ engine_requests events = [("account.list", Js.Undefined)])
    /\ exists accounts : list Account,
        fst after = Normal accounts
        /\ length accounts = length raws
        /\ forall i : nat,
             nth_error accounts i =
             option_map deserializeAccount (nth_error raws i).
Proof.
  intros w session raws Hsome Hraws after.
  split.
  - unfold after, listAccounts. rewrite bind_Array_map_state.
    apply (invoke_enters_engine_once env "account.list" Js.Undefined
             Js.Undefined w session Hsome).
  - exists (map deserializeAccount raws).
    split; [|split].
    + unfold after, listAccounts, bind.
      rewrite (_request_with_session env "account.list" Js.Undefined
                 Js.Undefined w session Hsome).
      rewrite engine_outcome in Hraws. rewrite Hraws. reflexivity.
    + apply length_map.
    + intros i. apply nth_error_map.
Qed.

(** C9. With a session, [requestAccount], [listCurrencies] and
    [signTransaction] put [{}] where a falsy [params] argument (left out,
    [null], ...) would go and an object argument itself otherwise, so that
    for an argument that is left out, falsy or an object the params the
    engine is entered with are an object. *)
Theorem falsy_params_become_empty_object :
  forall (w : Facade) (session : Session) (params : Js.value),
    serverAndClient w = Some session ->
    Js.falsy params = true \/ Js.is_object params = true ->
    exists sent : Js.value,
      Js.is_object sent = true
      /\ (Js.falsy params = true -> sent = Js.Obj [])
      /\ (Js.is_object params = true -> sent = params)
      /\ (exists events,
            trace (snd (requestAccount env params w)) = trace w ++ events
            /\ engine_requests events = [("account.request", sent)])
      /\ (exists events,
            trace (snd (listCurrencies env params w)) = trace w ++ events
            /\ engine_requests events = [("currency.list", sent)])
      /\ (forall (accountId : string) (transaction : Transaction),
            exists events,
              trace (snd (signTransaction env accountId transaction params w))
              = trace w ++ events
              /\ engine_requests events =
                 [("transaction.sign",
                   Js.Obj [("accountId", Js.Str accountId);
                           ("transaction", serializeTransaction transaction);
                           ("params", sent)])]).
Proof.
  intros w session params Hsome Htyped.
  exists (Js.or params (Js.Obj [])).
  split; [|split; [|split; [|split; [|split]]]].
  - unfold Js.or, Js.falsy in *.
    destruct Htyped as [Hfalsy|Hobject].
    + destruct (Js.truthy params); [discriminate|reflexivity].
    + destruct params; try discriminate. reflexivity.
  - unfold Js.or, Js.falsy. intros Hfalsy.
    destruct (Js.truthy params); [discriminate|reflexivity].
  - intros Hobject. destruct params; try discriminate. reflexivity.
  - unfold requestAccount. rewrite bind_ret. cbn [snd].
    apply (invoke_enters_engine_once env _ _ _ w session Hsome).
  - unfold listCurrencies.
    apply (invoke_enters_engine_once env _ _ _ w session Hsome).
  - intros accountId transaction.
    unfold signTransaction. rewrite bind_ret. cbn [snd].
    apply (invoke_enters_engine_once env _ _ _ w session Hsome).
Qed.

End Facade.

Lemma signTransaction_serializes_and_deserializes_witness :
  let sent :=
    Js.Obj [("accountId", Js.Str "acc-1");
            ("transaction", Js.Obj [("rawTransaction", Js.Str "tx")]);
            ("params", Js.Obj [])] in
  let after :=
    signTransaction sample_env "acc-1" (Js.Str "tx") Js.Undefined
      sample_connected in
  (exists events,
      trace (snd after) = trace sample_connected ++ events
      /\ engine_requests events = [("transaction.sign", sent)])
  /\ fst after = Normal (Js.Obj [("signed", Js.Str "0xABC")]).
Proof.
  destruct (signTransaction_serializes_and_deserializes sample_env
              sample_connected sample_session "acc-1" (Js.Str "tx")
              Js.Undefined eq_refl) as [Hsent [_ Hresult]].
  split.
  - exact Hsent.
  - apply (Hresult (Js.Str "0xABC")). reflexivity.
Defined.

Lemma listAccounts_preserves_length_and_order_witness :
  let after := listAccounts sample_env sample_connected in
  (exists events,
      trace (snd after) = trace sample_connected ++ events
      /\ engine_requests events = [("account.list", Js.Undefined)])
  /\ exists accounts : list Js.value,
      fst after = Normal accounts
      /\ length accounts = 2
      /\ forall i : nat,
           nth_error accounts i =
           option_map deserializeAccount
             (nth_error [Js.Obj [("id", Js.Str "acc-1")];
                         Js.Obj [("id", Js.Str "acc-2")]] i).
Proof.
  apply (listAccounts_preserves_length_and_order sample_env sample_connected
           sample_session
           [Js.Obj [("id", Js.Str "acc-1")]; Js.Obj [("id", Js.Str "acc-2")]]).
  - reflexivity.
  - reflexivity.
Defined.

Lemma falsy_params_become_empty_object_witness :
  exists events,
    trace (snd (listCurrencies sample_env Js.Null sample_connected)) =
    trace sample_connected ++ events
    /\ engine_requests events = [("currency.list", Js.Obj [])].
Proof.
  destruct (falsy_params_become_empty_object (serializers := sample_serializers)
              sample_env sample_connected sample_session Js.Null eq_refl
              (or_introl eq_refl))
    as [sent [_ [Hempty [_ [_ [Hlist _]]]]]].
  rewrite (Hempty eq_refl) in Hlist.
  exact Hlist.
Defined.

(** An argument of the declared parameter type, given or left out, is an
    object or is falsy. *)
Lemma declared_params_are_object_or_falsy :
  (forall o : option RequestAccountParams,
      let params := optional_argument RequestAccountParams_object o in
      Js.falsy params = true \/ Js.is_object params = true)
  /\ (forall o : option ListCurrenciesParams,
        let params := optional_argument ListCurrenciesParams_object o in
        Js.falsy params = true \/ Js.is_object params = true)
  /\ (forall o : option SignTransactionParams,
        let params := optional_argument SignTransactionParams_object o in
        Js.falsy params = true \/ Js.is_object params = true).
Proof.
  repeat split; intros [p|]; cbn; auto.
Qed.

(** ** After a disconnect *)

Section Scripts.

Context {Account Transaction SignedTransaction DeviceBridge : Type}.
Context {serializers : Serializers Account Transaction SignedTransaction}.
Variable env : Environment.

(** Without a session, a call other than [connect] leaves the instance
    without a session, hands nothing to the transport's [send] and does not
    enter the engine; if it goes through [_request] it is rejected as not
    connected. *)
Lemma perform_without_session
    (c : Call Transaction SignedTransaction DeviceBridge) (w : Facade) :
  serverAndClient w = None ->
  is_connect c = false ->
  serverAndClient (snd (perform env c w)) = None
  /\ transport_sends (trace (snd (perform env c w))) = transport_sends (trace w)
  /\ engine_requests (trace (snd (perform env c w))) = engine_requests (trace w)
  /\ (is_invoke c = true -> fst (perform env c w) = Throw not_connected).
Proof.
  intros Hnone Hcall.
  destruct c; try discriminate Hcall;
    cbn [perform is_invoke];
    unfold discard, requestAccount, listAccounts, listCurrencies, receive,
      signTransaction, broadcastSignedTransaction, bind;
    rewrite ?(_request_without_session env _ _ _ w Hnone);
    cbn [fst snd extend trace serverAndClient];
    rewrite ?transport_sends_app, ?engine_requests_app;
    cbn [transport_sends engine_requests flat_map app];
    rewrite ?app_nil_r;
    try (repeat split; (reflexivity || assumption || discriminate)).
  (* disconnect *)
  rewrite disconnect_unfolded.
  cbn [fst snd trace serverAndClient].
  rewrite transport_sends_app, engine_requests_app.
  destruct (env_disconnect env (trace w)) as [[]| |];
    cbn; rewrite ?app_nil_r; repeat split; discriminate.
Qed.

Lemma run_without_session
    (calls : list (Call Transaction SignedTransaction DeviceBridge)) :
  forall w : Facade,
    serverAndClient w = None ->
    forallb (fun c => negb (is_connect c)) calls = true ->
    Forall2 (fun c outcome =>
               is_invoke c = true -> outcome = Throw not_connected)
      calls (fst (run env calls w))
    /\ serverAndClient (snd (run env calls w)) = None
    /\ transport_sends (trace (snd (run env calls w))) =
       transport_sends (trace w)
    /\ engine_requests (trace (snd (run env calls w))) =
       engine_requests (trace w).
Proof.
  induction calls as [|c rest IH]; intros w Hnone Hcalls.
  - cbn. repeat split; auto.
  - cbn [forallb] in Hcalls. apply andb_prop in Hcalls.
    destruct Hcalls as [Hc Hrest].
    apply negb_true_iff in Hc.
    destruct (perform_without_session c w Hnone Hc)
      as [Hnone1 [Hsends1 [Hengine1 Hout1]]].
    cbn [run].
    destruct (perform env c w) as [outcome w1] eqn:Hperform.
    cbn [fst snd] in *.
    destruct (IH w1 Hnone1 Hrest) as [Hall [Hnone2 [Hsends2 Hengine2]]].
    destruct (run env rest w1) as [outcomes w2] eqn:Hrun.
    cbn [fst snd] in *.
    repeat split.
    + constructor; assumption.
    + assumption.
    + congruence.
    + congruence.
Qed.

(** C3. [disconnect()] leaves the instance without a session however
    [Transport.disconnect()] ends (it returns, it throws, or it never
    settles): the reference is dropped before the transport is called.
    [disconnect()] then awaits [Transport.disconnect()]: it calls it and ends
    exactly as that call ends.
    From then on, in any script of calls that does not connect again, every
    call that goes through [_request] ([_request] itself and the six facade
    operations built on it) is rejected with "Ledger Live API not
    connected", and nothing more is handed to [Transport.send] or to the
    engine. *)
Theorem no_invoke_after_disconnect :
  forall (w : Facade)
         (calls : list (Call Transaction SignedTransaction DeviceBridge)),
    forallb (fun c => negb (is_connect c)) calls = true ->
    let disconnected := snd (disconnect env w) in
    let script := run env calls disconnected in
    serverAndClient disconnected = None
    /\ fst (disconnect env w) = env_disconnect env (trace w)
    /\ (exists tail,
          trace disconnected =
          trace w ++ TransportDisconnect (transport w) :: tail)
    /\ Forall2 (fun c outcome =>
                  is_invoke c = true ->
                  outcome = Throw (Js.Error "Ledger Live API not connected"))
         calls (fst script)
    /\ transport_sends (trace (snd script)) =
       transport_sends (trace disconnected)
    /\ engine_requests (trace (snd script)) =
       engine_requests (trace disconnected)
    /\ serverAndClient (snd script) = None.
Proof.
  intros w calls Hcalls disconnected script.
  assert (Hnone : serverAndClient disconnected = None).
  { unfold disconnected. rewrite disconnect_unfolded. reflexivity. }
  destruct (run_without_session calls disconnected Hnone Hcalls)
    as [Hall [Hnone2 [Hsends Hengine]]].
  split; [exact Hnone|].
  split.
  { rewrite disconnect_unfolded. reflexivity. }
  split.
  { unfold disconnected. rewrite disconnect_unfolded. cbn [snd trace].
    eexists. reflexivity. }
  repeat split; assumption.
Qed.

End Scripts.

Lemma no_invoke_after_disconnect_witness :
  let calls : list (Call Js.value Js.value unit) :=
    [call_receive "acc-1"; call_getDeviceInfo; call_disconnect;
     call_signTransaction "acc-1" (Js.Str "tx") Js.Undefined] in
  let disconnected := snd (disconnect sample_env sample_connected) in
  let script := run sample_env calls disconnected in
  serverAndClient disconnected = None
  /\ fst (disconnect sample_env sample_connected) =
     env_disconnect sample_env (trace sample_connected)
  /\ (exists tail,
        trace disconnected =
        trace sample_connected
        ++ TransportDisconnect (transport sample_connected) :: tail)
  /\ Forall2 (fun c outcome =>
                is_invoke c = true ->
                outcome = Throw (Js.Error "Ledger Live API not connected"))
       calls (fst script)
  /\ transport_sends (trace (snd script)) = transport_sends (trace disconnected)
  /\ engine_requests (trace (snd script)) = engine_requests (trace disconnected)
  /\ serverAndClient (snd script) = None.
Proof.
  apply (no_invoke_after_disconnect (serializers := sample_serializers)
           sample_env sample_connected
           [call_receive "acc-1"; call_getDeviceInfo; call_disconnect;
            call_signTransaction "acc-1" (Js.Str "tx") Js.Undefined]).
  reflexivity.
Defined.

(** ** The instances a caller can reach are well formed *)

Lemma well_formed_extend (w : Facade) (es : list Event) :
  well_formed w -> well_formed (extend w es).
Proof. intros H. exact H. Qed.

Lemma _request_extends (env : Environment) (method : string)
    (params clientParams : Js.value) (w : Facade) :
  exists events,
    snd (_request env method params clientParams w) = extend w events.
Proof.
  destruct (serverAndClient w) as [session|] eqn:Hfield.
  - rewrite (_request_with_session env method params clientParams w session
               Hfield).
    eexists. reflexivity.
  - rewrite (_request_without_session env method params clientParams w Hfield).
    eexists. reflexivity.
Qed.

Lemma connect_well_formed (env : Environment) (w : Facade) :
  well_formed w -> well_formed (snd (connect env w)).
Proof.
  intros [Hfield Hcallback].
  destruct (env_connect env (trace w)) as [e|] eqn:Hconnect.
  - rewrite (connect_when_transport_throws env w e Hconnect).
    split; cbn.
    + destruct (serverAndClient w); cbn in *; lia.
    + lia.
  - rewrite (connect_when_transport_returns env w Hconnect).
    split; cbn; lia.
Qed.

Lemma disconnect_well_formed (env : Environment) (w : Facade) :
  well_formed w -> well_formed (snd (disconnect env w)).
Proof.
  intros [_ Hcallback]. rewrite disconnect_unfolded.
  split; cbn; [exact I | exact Hcallback].
Qed.

Section Reachable.

Context {Account Transaction SignedTransaction DeviceBridge : Type}.
Context {serializers : Serializers Account Transaction SignedTransaction}.
Variable env : Environment.

Lemma perform_well_formed
    (c : Call Transaction SignedTransaction DeviceBridge) (w : Facade) :
  well_formed w -> well_formed (snd (perform env c w)).
Proof.
  intros Hw.
  destruct c; cbn [perform];
    try (unfold discard, requestAccount, listCurrencies, receive,
           signTransaction, broadcastSignedTransaction;
         rewrite ?bind_ret; cbn [snd]; rewrite ?bind_ret; cbn [snd];
         match goal with
         | |- well_formed (snd (_request ?e ?m ?p ?c ?w)) =>
             destruct (_request_extends e m p c w) as [events ->];
             apply well_formed_extend; exact Hw
         end);
    try exact Hw.
  - apply connect_well_formed; exact Hw.
  - apply disconnect_well_formed; exact Hw.
  - unfold discard, listAccounts. rewrite bind_ret. cbn [snd].
    rewrite bind_Array_map_state.
    destruct (_request_extends env "account.list" Js.Undefined Js.Undefined w)
      as [events ->].
    apply well_formed_extend; exact Hw.
Qed.

Lemma run_well_formed
    (calls : list (Call Transaction SignedTransaction DeviceBridge)) :
  forall w : Facade, well_formed w -> well_formed (snd (run env calls w)).
Proof.
  induction calls as [|c rest IH]; intros w Hw.
  - exact Hw.
  - cbn [run].
    pose proof (perform_well_formed c w Hw) as Hstep.
    destruct (perform env c w) as [outcome w1]. cbn [snd] in Hstep.
    specialize (IH w1 Hstep).
    destruct (run env rest w1) as [outcomes w2]. exact IH.
Qed.

(** Whatever a caller does with a new instance, the instance stays well
    formed. *)
Lemma reachable_well_formed
    (calls : list (Call Transaction SignedTransaction DeviceBridge)) (t : nat) :
  well_formed (snd (run env calls (constructor t))).
Proof.
  apply run_well_formed. split; exact I.
Qed.

End Reachable.

(** * Further properties of the class *)

(** ** What the other facade operations send and return *)

(** The trace of [_request] is the trace of the underlying request followed
    by the log of its settlement. *)
Lemma _request_trace (env : Environment) (method : string)
    (params clientParams : Js.value) (w : Facade) (session : Session) :
  serverAndClient w = Some session ->
  let underlying :=
    JSONRPCServerAndClient_request env session method params clientParams
      (request_logged method params clientParams w) in
  fst (_request env method params clientParams w) = fst underlying
  /\ trace (snd (_request env method params clientParams w)) =
     trace (snd underlying)
     ++ settlement_log method params clientParams (fst underlying).
Proof.
  intros Hsome underlying.
  rewrite (_request_with_session env method params clientParams w session Hsome).
  unfold underlying. rewrite engine_outcome.
  split; [reflexivity|].
  unfold JSONRPCServerAndClient_request, bind, record, records, request_logged.
  cbn [fst snd]. rewrite !extend_extend. cbn [extend trace].
  rewrite <- !app_assoc. reflexivity.
Qed.

Section FacadeResults.

Context {Account Transaction SignedTransaction : Type}.
Context {serializers : Serializers Account Transaction SignedTransaction}.
Variable env : Environment.

(** X1. With a session, [requestAccount] settles as the underlying request for
    "account.request" does: a result [raw] comes back as
    [deserializeAccount raw], a rejection (the user cancelled, say) comes
    back as the same error with nothing deserialized, and a request that
    never settles leaves [requestAccount] unsettled.  The instance ends in
    the state [_request] left it in. *)
Theorem requestAccount_deserializes_only_results :
  forall (w : Facade) (session : Session) (params : Js.value),
    serverAndClient w = Some session ->
    let sent := if Js.truthy params then params else Js.Obj [] in
    let underlying :=
      JSONRPCServerAndClient_request env session "account.request" sent
        Js.Undefined (request_logged "account.request" sent Js.Undefined w) in
    let after := requestAccount env params w in
    (forall raw : Js.value,
        fst underlying = Normal raw ->
        fst after = Normal (deserializeAccount raw))
    /\ (forall e : Js.error, fst underlying = Throw e -> fst after = Throw e)
    /\ (fst underlying = Suspended -> fst after = Suspended)
    /\ snd after = snd (_request env "account.request" sent Js.Undefined w).
Proof.
  intros w session params Hsome sent underlying after.
  assert (Hfst : fst after = Completion_map deserializeAccount (fst underlying)).
  { unfold after, requestAccount. rewrite bind_ret. cbn [fst].
    rewrite (_request_with_session env _ _ _ w session Hsome).
    reflexivity. }
  repeat split.
  - intros raw Hraw. rewrite Hfst, Hraw. reflexivity.
  - intros e He. rewrite Hfst, He. reflexivity.
  - intros Hnever. rewrite Hfst, Hnever. reflexivity.
  - unfold after, requestAccount. rewrite bind_ret. reflexivity.
Qed.

(** X2. With a session, [receive], [broadcastSignedTransaction] and
    [listCurrencies] hand back whatever the underlying request settles with,
    untouched: [receive] asks "account.receive" with [{accountId}],
    [broadcastSignedTransaction] asks "transaction.broadcast" with
    [{accountId, signedTransaction}] where the signed transaction went through
    [serializeSignedTransaction], and [listCurrencies] asks "currency.list".
    Each enters the engine exactly once. *)
Theorem passthrough_operations_return_raw_result :
  forall (w : Facade) (session : Session) (accountId : string)
         (signedTransaction : SignedTransaction) (params : Js.value),
    serverAndClient w = Some session ->
    let underlying (method : string) (sent : Js.value) :=
      JSONRPCServerAndClient_request env session method sent Js.Undefined
        (request_logged method sent Js.Undefined w) in
    let entered (after : Completion Js.value * Facade) (method : string)
        (sent : Js.value) :=
      fst after = fst (underlying method sent)
      /\ exists events,
           trace (snd after) = trace w ++ events
           /\ engine_requests events = [(method, sent)] in
    entered (receive env accountId w) "account.receive"
      (Js.Obj [("accountId", Js.Str accountId)])
    /\ entered (broadcastSignedTransaction env accountId signedTransaction w)
         "transaction.broadcast"
         (Js.Obj [("accountId", Js.Str accountId);
                  ("signedTransaction",
                   serializeSignedTransaction signedTransaction)])
    /\ entered (listCurrencies env params w) "currency.list"
         (if Js.truthy params then params else Js.Obj []).
Proof.
  intros w session accountId signedTransaction params Hsome underlying entered.
  unfold entered, underlying, receive, broadcastSignedTransaction,
    listCurrencies.
  repeat split;
    try (rewrite (_request_with_session env _ _ _ w session Hsome);
         reflexivity);
    apply (invoke_enters_engine_once env _ _ _ w session Hsome).
Qed.

(** X3. With a session, when the answer to "account.list" is a result that is
    not an array, [listAccounts] is rejected with a [TypeError].  The failure
    arises after [_request] has returned: the last thing logged is the
    response at log level, not an error at warning level. *)
Theorem listAccounts_rejects_non_array_result :
  forall (w : Facade) (session : Session) (raw : Js.value),
    serverAndClient w = Some session ->
    let underlying :=
      JSONRPCServerAndClient_request env session "account.list" Js.Undefined
        Js.Undefined
        (request_logged "account.list" Js.Undefined Js.Undefined w) in
    fst underlying = Normal raw ->
    (forall items : list Js.value, raw <> Js.Arr items) ->
    let after := listAccounts env w in
    (exists message : string, fst after = Throw (Js.TypeError message))
    /\ trace (snd after) =
       trace (snd underlying)
       ++ [Logged level_log "response - account.list"
             [ArgValue Js.Undefined; ArgValue Js.Undefined]].
Proof.
  intros w session raw Hsome underlying Hraw Hshape after.
  destruct (_request_trace env "account.list" Js.Undefined Js.Undefined w
              session Hsome) as [Hfst Htrace].
  fold underlying in Hfst, Htrace. rewrite Hraw in Hfst, Htrace.
  cbn [settlement_log] in Htrace.
  split.
  - unfold after, listAccounts, bind.
    destruct (_request env "account.list" Js.Undefined Js.Undefined w)
      as [outcome w1].
    cbn [fst] in Hfst. subst outcome.
    destruct raw; cbn; try (eexists; reflexivity).
    exfalso. eapply Hshape. reflexivity.
  - unfold after, listAccounts. rewrite bind_Array_map_state. exact Htrace.
Qed.

End FacadeResults.

(** ** What one call adds to the trace *)

Lemma filter_sends (f : Event -> bool) (t : nat) (payloads : list Js.value) :
  (forall p : Js.value, f (TransportSend t p) = false) ->
  filter f (map (TransportSend t) payloads) = [].
Proof.
  intros Hf. induction payloads as [|p ps IH]; cbn; [reflexivity|].
  rewrite Hf. exact IH.
Qed.

Lemma sends_on_transport (t : nat) (payloads : list Js.value) :
  Forall (on_transport t) (map (TransportSend t) payloads).
Proof.
  induction payloads as [|p ps IH]; cbn; constructor; auto.
  intros t' Ht'. cbn in Ht'. congruence.
Qed.

Lemma transport_sends_of_sends (t : nat) (payloads : list Js.value) :
  transport_sends (map (TransportSend t) payloads) = payloads.
Proof.
  induction payloads as [|p ps IH]; cbn; [reflexivity|].
  unfold transport_sends in IH. now rewrite IH.
Qed.

Lemma count_events_app (f : Event -> bool) (es fs : list Event) :
  count_events f (es ++ fs) = count_events f es + count_events f fs.
Proof.
  unfold count_events. rewrite filter_app. apply length_app.
Qed.

(** [_request] only adds to the trace: logs, at most one entry into the
    engine, and sends on the transport of the session it went through. *)
Lemma _request_events (env : Environment) (method : string)
    (params clientParams : Js.value) (w : Facade) :
  exists events,
    snd (_request env method params clientParams w) = extend w events
    /\ engine_requests events =
       match serverAndClient w with
       | Some _ => [(method, params)]
       | None => []
       end
    /\ filter is_TransportConnect events = []
    /\ filter is_TransportDisconnect events = []
    /\ (forall t : nat,
          (forall session : Session,
              serverAndClient w = Some session ->
              session_transport session = t) ->
          Forall (on_transport t) events).
Proof.
  destruct (serverAndClient w) as [session|] eqn:Hfield.
  - rewrite (_request_with_session env method params clientParams w session
               Hfield).
    cbn [snd]. eexists. split; [reflexivity|].
    set (answer := env_request env session method params clientParams
                     (trace (request_logged method params clientParams w))).
    split; [|split; [|split]].
    + rewrite !engine_requests_app, engine_requests_sends,
        engine_requests_settlement. reflexivity.
    + rewrite !filter_app, filter_sends by reflexivity.
      destruct (snd answer); reflexivity.
    + rewrite !filter_app, filter_sends by reflexivity.
      destruct (snd answer); reflexivity.
    + intros t Ht. rewrite <- (Ht session eq_refl).
      repeat (apply Forall_app; split).
      * repeat constructor; intros t' Ht'; discriminate Ht'.
      * apply sends_on_transport.
      * destruct (snd answer); repeat constructor;
          intros t' Ht'; discriminate Ht'.
  - rewrite (_request_without_session env method params clientParams w Hfield).
    cbn [snd]. eexists. split; [reflexivity|].
    repeat split.
    intros t _. repeat constructor. intros t' Ht'. discriminate Ht'.
Qed.

Section Calls.

Context {Account Transaction SignedTransaction DeviceBridge : Type}.
Context {serializers : Serializers Account Transaction SignedTransaction}.
Variable env : Environment.

Lemma wire_request_of_invoke
    (c : Call Transaction SignedTransaction DeviceBridge) :
  if is_invoke c
  then exists method params clientParams,
         wire_request c = Some (method, params, clientParams)
  else wire_request c = None.
Proof. destruct c; cbn; eauto. Qed.

(** A call that goes through [_request] leaves the instance where
    [_request] leaves it, and hands on every settlement that is not a
    result. *)
Lemma perform_through_request
    (c : Call Transaction SignedTransaction DeviceBridge) (w : Facade)
    (method : string) (params clientParams : Js.value) :
  wire_request c = Some (method, params, clientParams) ->
  snd (perform env c w) = snd (_request env method params clientParams w)
  /\ ((forall v : Js.value,
          fst (_request env method params clientParams w) <> Normal v) ->
      fst (perform env c w) =
      Completion_map (fun _ => tt)
        (fst (_request env method params clientParams w))).
Proof.
  intros Hwire.
  destruct c; cbn [wire_request] in Hwire; try discriminate Hwire;
    injection Hwire as <- <- <-;
    cbn [perform];
    unfold discard, requestAccount, listAccounts, listCurrencies, receive,
      signTransaction, broadcastSignedTransaction, bind, ret;
    match goal with
    | |- context [_request env ?m ?p ?cp w] =>
        destruct (_request env m p cp w) as [[v|e|] w1]
    end;
    cbn [fst snd Completion_map];
    (split;
     [ try reflexivity; destruct v; reflexivity
     | intros Hfails; try reflexivity; exfalso; apply (Hfails v); reflexivity ]).
Qed.

Lemma perform_placeholder
    (c : Call Transaction SignedTransaction DeviceBridge) (w : Facade) :
  is_invoke c = false -> is_connect c = false -> is_disconnect c = false ->
  perform env c w = (Throw not_implemented, w).
Proof.
  intros Hinvoke Hconnect Hdisconnect.
  destruct c; try discriminate; reflexivity.
Qed.

(** What a call other than [connect] and [disconnect] adds to the trace. *)
Lemma perform_events
    (c : Call Transaction SignedTransaction DeviceBridge) (w : Facade) :
  is_connect c = false -> is_disconnect c = false ->
  exists events,
    snd (perform env c w) = extend w events
    /\ engine_requests events =
       match serverAndClient w with
       | Some _ => wire_requests [c]
       | None => []
       end
    /\ filter is_TransportConnect events = []
    /\ filter is_TransportDisconnect events = []
    /\ (forall t : nat,
          (forall session : Session,
              serverAndClient w = Some session ->
              session_transport session = t) ->
          Forall (on_transport t) events).
Proof.
  intros Hconnect Hdisconnect.
  pose proof (wire_request_of_invoke c) as Hwire.
  destruct (is_invoke c) eqn:Hinvoke.
  - destruct Hwire as (method & params & clientParams & Hwire).
    destruct (perform_through_request c w method params clientParams Hwire)
      as [Hstate _].
    destruct (_request_events env method params clientParams w)
      as (events & Hsnd & Hengine & Hrest).
    exists events. rewrite Hstate. split; [exact Hsnd|].
    split; [|exact Hrest].
    rewrite Hengine. unfold wire_requests. cbn [flat_map]. rewrite Hwire.
    destruct (serverAndClient w); reflexivity.
  - rewrite (perform_placeholder c w Hinvoke Hconnect Hdisconnect).
    exists []. cbn [snd]. rewrite extend_nil.
    split; [reflexivity|].
    split.
    { unfold wire_requests. cbn [flat_map]. rewrite Hwire.
      destruct (serverAndClient w); reflexivity. }
    repeat split. intros t _. constructor.
Qed.

End Calls.

(** ** Calls and scripts *)

Section CallProperties.

Context {Account Transaction SignedTransaction DeviceBridge : Type}.
Context {serializers : Serializers Account Transaction SignedTransaction}.
Variable env : Environment.

(** X4. No call other than [connect] and [disconnect] touches the session, the
    transport's callback or the transport, however the call ends: a request
    that fails does not tear the session down.  Such a call only adds to the
    trace, and it enters the engine at most once (nothing is retried), exactly
    once when it goes through [_request] on an instance with a session. *)
Theorem calls_keep_session_and_never_retry :
  forall (c : Call Transaction SignedTransaction DeviceBridge) (w : Facade),
    is_connect c = false ->
    is_disconnect c = false ->
    let after := snd (perform env c w) in
    serverAndClient after = serverAndClient w
    /\ onMessage after = onMessage w
    /\ allocated after = allocated w
    /\ transport after = transport w
    /\ exists events,
         trace after = trace w ++ events
         /\ length (engine_requests events) <= 1
         /\ (is_invoke c = true ->
             serverAndClient w <> None ->
             length (engine_requests events) = 1).
Proof.
  intros c w Hconnect Hdisconnect after.
  destruct (perform_events env c w Hconnect Hdisconnect)
    as (events & Hsnd & Hengine & _).
  unfold after. rewrite Hsnd. cbn [extend serverAndClient onMessage allocated
                                     transport trace].
  repeat split.
  exists events. split; [reflexivity|].
  rewrite Hengine. unfold wire_requests. cbn [flat_map].
  pose proof (wire_request_of_invoke c) as Hwire.
  destruct (is_invoke c).
  - destruct Hwire as (method & params & clientParams & ->).
    destruct (serverAndClient w); cbn; split; auto.
    intros _ Hnone. contradiction Hnone. reflexivity.
  - rewrite Hwire. destruct (serverAndClient w); cbn; split; auto;
      discriminate.
Qed.

(** X5. When the engine settles requests with a rejection, or never settles
    them, every operation that goes through [_request] ends in the same way:
    no facade operation swallows an error, wraps it, or answers in the
    engine's place. *)
Theorem facade_hands_failures_on :
  forall (c : Call Transaction SignedTransaction DeviceBridge) (w : Facade)
         (session : Session) (failure : Completion Js.value),
    is_invoke c = true ->
    serverAndClient w = Some session ->
    (forall v : Js.value, failure <> Normal v) ->
    (forall s method params clientParams history,
        snd (env_request env s method params clientParams history) = failure) ->
    (forall e : Js.error,
        failure = Throw e -> fst (perform env c w) = Throw e)
    /\ (failure = Suspended -> fst (perform env c w) = Suspended).
Proof.
  intros c w session failure Hinvoke Hsome Hfailure Hengine.
  pose proof (wire_request_of_invoke c) as Hwire. rewrite Hinvoke in Hwire.
  destruct Hwire as (method & params & clientParams & Hwire).
  destruct (perform_through_request env c w method params clientParams Hwire)
    as [_ Hfst].
  assert (Hrequest :
            fst (_request env method params clientParams w) = failure).
  { rewrite (_request_with_session env method params clientParams w session
               Hsome).
    apply Hengine. }
  rewrite Hrequest in Hfst. specialize (Hfst Hfailure).
  split.
  - intros e ->. exact Hfst.
  - intros ->. exact Hfst.
Qed.

(** X6. On an instance with a session, a script without [connect] and
    [disconnect] enters the engine once for each call that goes through
    [_request], in the order of the calls, with the method and params of
    that call; the session at the end is the one at the start. *)
Theorem requests_enter_engine_in_call_order :
  forall (calls : list (Call Transaction SignedTransaction DeviceBridge))
         (w : Facade) (session : Session),
    serverAndClient w = Some session ->
    forallb (fun c => negb (is_connect c) && negb (is_disconnect c)) calls
    = true ->
    let final := snd (run env calls w) in
    serverAndClient final = Some session
    /\ length (fst (run env calls w)) = length calls
    /\ exists events,
         trace final = trace w ++ events
         /\ engine_requests events = wire_requests calls.
Proof.
  induction calls as [|c rest IH]; intros w session Hsome Hcalls final.
  - cbn. repeat split; auto. exists []. now rewrite app_nil_r.
  - cbn [forallb] in Hcalls.
    apply andb_prop in Hcalls. destruct Hcalls as [Hc Hrest].
    apply andb_prop in Hc. destruct Hc as [Hconnect Hdisconnect].
    apply negb_true_iff in Hconnect, Hdisconnect.
    destruct (perform_events env c w Hconnect Hdisconnect)
      as (events & Hsnd & Hengine & _).
    rewrite Hsome in Hengine.
    unfold final. cbn [run].
    destruct (perform env c w) as [outcome w1]. cbn [snd] in Hsnd. subst w1.
    specialize (IH (extend w events) session Hsome Hrest).
    cbn zeta in IH.
    destruct (run env rest (extend w events)) as [outcomes w2].
    cbn [fst snd] in *.
    destruct IH as (Hfield & Hlength & events' & Htrace & Hengine').
    split; [exact Hfield|]. split; [cbn; now rewrite Hlength|].
    exists (events ++ events'). split.
    + rewrite Htrace. cbn [extend trace]. now rewrite app_assoc.
    + rewrite engine_requests_app, Hengine, Hengine'.
      unfold wire_requests. cbn [flat_map]. now rewrite app_nil_r.
Qed.

End CallProperties.

(** ** Invariants of every instance a caller can reach *)

Lemma connect_own_transport (env : Environment) (t : nat) (w : Facade) :
  own_transport t w -> own_transport t (snd (connect env w)).
Proof.
  intros (Htransport & Htrace & Hsession).
  destruct (env_connect env (trace w)) as [e|] eqn:Hconnect.
  - rewrite (connect_when_transport_throws env w e Hconnect).
    split; [exact Htransport|]. split; [|exact Hsession].
    cbn [snd trace]. apply Forall_app. split; [exact Htrace|].
    repeat constructor. intros t' Ht'. cbn in Ht'. congruence.
  - rewrite (connect_when_transport_returns env w Hconnect).
    split; [exact Htransport|]. split.
    + cbn [snd trace]. apply Forall_app. split; [exact Htrace|].
      repeat constructor; intros t' Ht'; cbn in Ht'; congruence.
    + cbn [snd serverAndClient]. intros session [= <-]. exact Htransport.
Qed.

Lemma disconnect_own_transport (env : Environment) (t : nat) (w : Facade) :
  own_transport t w -> own_transport t (snd (disconnect env w)).
Proof.
  intros (Htransport & Htrace & _).
  rewrite disconnect_unfolded.
  split; [exact Htransport|]. split.
  - cbn [snd trace]. apply Forall_app. split; [exact Htrace|].
    constructor.
    + intros t' Ht'. cbn in Ht'. congruence.
    + destruct (env_disconnect env (trace w)); repeat constructor;
        intros t' Ht'; discriminate Ht'.
  - cbn [snd serverAndClient]. discriminate.
Qed.

Section Invariants.

Context {Account Transaction SignedTransaction DeviceBridge : Type}.
Context {serializers : Serializers Account Transaction SignedTransaction}.
Variable env : Environment.

Lemma perform_own_transport
    (c : Call Transaction SignedTransaction DeviceBridge) (t : nat)
    (w : Facade) :
  own_transport t w -> own_transport t (snd (perform env c w)).
Proof.
  intros Hown.
  destruct (is_connect c) eqn:Hconnect.
  { destruct c; try discriminate Hconnect.
    apply connect_own_transport. exact Hown. }
  destruct (is_disconnect c) eqn:Hdisconnect.
  { destruct c; try discriminate Hdisconnect.
    apply disconnect_own_transport. exact Hown. }
  destruct Hown as (Htransport & Htrace & Hsession).
  destruct (perform_events env c w Hconnect Hdisconnect)
    as (events & -> & _ & _ & _ & Hevents).
  split; [exact Htransport|]. split; [|exact Hsession].
  cbn [extend trace]. apply Forall_app. split; [exact Htrace|].
  apply Hevents. exact Hsession.
Qed.

Lemma run_own_transport
    (calls : list (Call Transaction SignedTransaction DeviceBridge))
    (t : nat) :
  forall w : Facade, own_transport t w -> own_transport t (snd (run env calls w)).
Proof.
  induction calls as [|c rest IH]; intros w Hown.
  - exact Hown.
  - cbn [run].
    pose proof (perform_own_transport c t w Hown) as Hstep.
    destruct (perform env c w) as [outcome w1]. cbn [snd] in Hstep.
    specialize (IH w1 Hstep).
    destruct (run env rest w1) as [outcomes w2]. exact IH.
Qed.

(** X10. Whatever a caller does with an instance made on transport [t], every
    call the instance makes to a transport ([connect], [disconnect] and every
    [send] of every session it ever made) is a call to [t], and the session
    it holds, if any, sends through [t]. *)
Theorem instance_talks_to_its_transport_only :
  forall (calls : list (Call Transaction SignedTransaction DeviceBridge))
         (t : nat),
    let final := snd (run env calls (constructor t)) in
    transport final = t
    /\ (forall (e : Event) (t' : nat),
          In e (trace final) -> event_transport e = Some t' -> t' = t)
    /\ (forall session : Session,
          serverAndClient final = Some session ->
          session_transport session = t).
Proof.
  intros calls t final.
  assert (Hown : own_transport t final).
  { apply run_own_transport.
    split; [reflexivity|]. split; [constructor|]. discriminate. }
  destruct Hown as (Htransport & Htrace & Hsession).
  split; [exact Htransport|]. split; [|exact Hsession].
  intros e t' Hin. rewrite Forall_forall in Htrace. exact (Htrace e Hin t').
Qed.

Lemma perform_counts
    (c : Call Transaction SignedTransaction DeviceBridge) (w : Facade) :
  let after := snd (perform env c w) in
  count_events is_TransportConnect (trace after) =
    count_events is_TransportConnect (trace w) + (if is_connect c then 1 else 0)
  /\ count_events is_TransportDisconnect (trace after) =
     count_events is_TransportDisconnect (trace w)
     + (if is_disconnect c then 1 else 0)
  /\ allocated after = allocated w + (if is_connect c then 1 else 0).
Proof.
  intros after. unfold after.
  destruct (is_connect c) eqn:Hconnect.
  { destruct c; try discriminate Hconnect. cbn [perform is_disconnect].
    destruct (env_connect env (trace w)) as [e|] eqn:Hanswer.
    - rewrite (connect_when_transport_throws env w e Hanswer).
      cbn [snd trace allocated]. rewrite !count_events_app. cbn. lia.
    - rewrite (connect_when_transport_returns env w Hanswer).
      cbn [snd trace allocated]. rewrite !count_events_app. cbn. lia. }
  destruct (is_disconnect c) eqn:Hdisconnect.
  { destruct c; try discriminate Hdisconnect. cbn [perform].
    rewrite disconnect_unfolded.
    cbn [snd trace allocated]. rewrite !count_events_app.
    destruct (env_disconnect env (trace w)); cbn; lia. }
  destruct (perform_events env c w Hconnect Hdisconnect)
    as (events & -> & _ & Hconnects & Hdisconnects & _).
  assert (Hc : count_events is_TransportConnect events = 0)
    by (unfold count_events; now rewrite Hconnects).
  assert (Hd : count_events is_TransportDisconnect events = 0)
    by (unfold count_events; now rewrite Hdisconnects).
  cbn [extend trace allocated]. rewrite !count_events_app. lia.
Qed.

Lemma run_counts
    (calls : list (Call Transaction SignedTransaction DeviceBridge)) :
  forall w : Facade,
    let final := snd (run env calls w) in
    count_events is_TransportConnect (trace final) =
      count_events is_TransportConnect (trace w)
      + length (filter is_connect calls)
    /\ count_events is_TransportDisconnect (trace final) =
       count_events is_TransportDisconnect (trace w)
       + length (filter is_disconnect calls)
    /\ allocated final = allocated w + length (filter is_connect calls).
Proof.
  induction calls as [|c rest IH]; intros w final.
  - cbn. lia.
  - unfold final. cbn [run filter].
    pose proof (perform_counts c w) as Hstep. cbn zeta in Hstep.
    destruct (perform env c w) as [outcome w1]. cbn [snd] in Hstep.
    specialize (IH w1). cbn zeta in IH.
    destruct (run env rest w1) as [outcomes w2]. cbn [snd] in *.
    destruct (is_connect c), (is_disconnect c); cbn [length]; lia.
Qed.

(** X11. [Transport.connect()] is called exactly once for each [connect()] of the
    caller, whether it returns or throws, and [Transport.disconnect()]
    exactly once for each [disconnect()], whatever the state: no other
    operation connects, reconnects or disconnects behind the caller's back,
    and each [connect()] makes exactly one session. *)
Theorem transport_lifecycle_calls_match_the_script :
  forall (calls : list (Call Transaction SignedTransaction DeviceBridge))
         (t : nat),
    let final := snd (run env calls (constructor t)) in
    count_events is_TransportConnect (trace final)
    = length (filter is_connect calls)
    /\ count_events is_TransportDisconnect (trace final)
       = length (filter is_disconnect calls)
    /\ allocated final = length (filter is_connect calls).
Proof.
  intros calls t final.
  pose proof (run_counts calls (constructor t)) as H. cbn zeta in H.
  exact H.
Qed.

End Invariants.

(** ** How connecting, disconnecting and requesting compose *)

(** X7. From any state, once [connect()] has returned, a [_request] is no longer
    refused: it goes through the session [connect()] has just made, settles
    as the engine settles it, and every payload the engine's client sends is
    handed, in order, to [send] of the instance's own transport. *)
Theorem connect_then_request_reaches_the_transport :
  forall (env : Environment) (w : Facade) (method : string)
         (params clientParams : Js.value),
    env_connect env (trace w) = None ->
    let connected := snd (connect env w) in
    let fresh :=
      {| session_id := allocated w; session_transport := transport w |} in
    let answer :=
      env_request env fresh method params clientParams
        (trace (request_logged method params clientParams connected)) in
    let after := _request env method params clientParams connected in
    fst after = snd answer
    /\ exists events,
         trace (snd after) = trace connected ++ events
         /\ engine_requests events = [(method, params)]
         /\ transport_sends events = fst answer
         /\ Forall (on_transport (transport w)) events
         /\ In (EngineRequest fresh method params clientParams) events.
Proof.
  intros env w method params clientParams Hconnect connected fresh answer after.
  assert (Hfield : serverAndClient connected = Some fresh).
  { unfold connected. rewrite (connect_when_transport_returns env w Hconnect).
    reflexivity. }
  unfold after.
  rewrite (_request_with_session env method params clientParams connected
             fresh Hfield).
  fold answer. cbn [fst snd extend trace].
  split; [reflexivity|].
  eexists. split; [reflexivity|].
  split; [|split; [|split]].
  - rewrite !engine_requests_app, engine_requests_sends,
      engine_requests_settlement. reflexivity.
  - rewrite !transport_sends_app, transport_sends_of_sends.
    destruct (snd answer); cbn; now rewrite ?app_nil_r.
  - repeat (apply Forall_app; split).
    + repeat constructor; intros t' Ht'; discriminate Ht'.
    + apply sends_on_transport.
    + destruct (snd answer); repeat constructor;
        intros t' Ht'; discriminate Ht'.
  - cbn. auto.
Qed.

(** X8. [disconnect()] never writes [transport.onMessage].  After a [connect()]
    that returned and a [disconnect()], however the latter ends, the instance
    holds no session while the transport's callback is still the one of the
    session that was dropped. *)
Theorem disconnect_leaves_callback_registered :
  forall (env : Environment) (w : Facade),
    env_connect env (trace w) = None ->
    let connected := snd (connect env w) in
    let after := snd (disconnect env connected) in
    serverAndClient after = None
    /\ onMessage after = serverAndClient connected
    /\ onMessage after =
       Some {| session_id := allocated w; session_transport := transport w |}.
Proof.
  intros env w Hconnect connected after.
  unfold after. rewrite disconnect_unfolded. cbn [snd serverAndClient onMessage].
  unfold connected. rewrite (connect_when_transport_returns env w Hconnect).
  repeat split.
Qed.

(** X9. When [Transport.connect()] throws on an instance that holds a session,
    the session field still holds that session, and later requests go
    through it, but the transport's callback has already been moved to the
    session that was made for the attempt and never installed. *)
Theorem failed_reconnect_moves_the_callback_only :
  forall (env : Environment) (w : Facade) (current : Session) (e : Js.error),
    serverAndClient w = Some current ->
    well_formed w ->
    env_connect env (trace w) = Some e ->
    let after := snd (connect env w) in
    serverAndClient after = Some current
    /\ (exists orphan : Session,
          onMessage after = Some orphan /\ orphan <> current)
    /\ forall (method : string) (params clientParams : Js.value),
         exists events,
           trace (snd (_request env method params clientParams after)) =
           trace after ++ events
           /\ In (EngineRequest current method params clientParams) events.
Proof.
  intros env w current e Hsome [Hcounted _] Hthrow after.
  rewrite Hsome in Hcounted. cbn [counted] in Hcounted.
  assert (Hfield : serverAndClient after = Some current).
  { unfold after. rewrite (connect_when_transport_throws env w e Hthrow).
    exact Hsome. }
  split; [exact Hfield|]. split.
  - unfold after. rewrite (connect_when_transport_throws env w e Hthrow).
    cbn [snd onMessage]. eexists. split; [reflexivity|].
    intros <-. cbn [session_id] in Hcounted. lia.
  - intros method params clientParams.
    rewrite (_request_with_session env method params clientParams after
               current Hfield).
    cbn [snd extend trace]. eexists. split; [reflexivity|].
    cbn. auto.
Qed.

(** ** The enumerations of the declarations *)

(** X12. In each of [ExchangeType], [FeesLevel] and [DeviceModel], different
    members have different wire strings. *)
Theorem enum_wire_values_are_distinct :
  (forall a b : ExchangeType,
      ExchangeType_value a = ExchangeType_value b -> a = b)
  /\ (forall a b : FeesLevel, FeesLevel_value a = FeesLevel_value b -> a = b)
  /\ (forall a b : DeviceModel,
        DeviceModel_value a = DeviceModel_value b -> a = b).
Proof.
  repeat split; intros [] []; cbn; intros H;
    try reflexivity; discriminate H.
Qed.

(** ** The further properties at concrete instances *)

Lemma requestAccount_deserializes_only_results_witness :
  serverAndClient sample_connected = Some sample_session
  /\ fst (requestAccount sample_env Js.Undefined sample_connected)
     = Throw (Js.Error "User denied").
Proof.
  split; [reflexivity|].
  destruct (requestAccount_deserializes_only_results
              (serializers := sample_serializers) sample_env sample_connected
              sample_session Js.Undefined eq_refl) as [_ [Hreject _]].
  apply Hreject. reflexivity.
Defined.

Lemma passthrough_operations_return_raw_result_witness :
  fst (receive sample_env "acc-1" sample_connected) = Suspended
  /\ fst (broadcastSignedTransaction sample_env "acc-1" (Js.Str "signed")
            sample_connected)
     = Normal (Js.Str "0xABC")
  /\ fst (listCurrencies sample_env Js.Undefined sample_connected)
     = Normal (Js.Str "0xABC").
Proof.
  destruct (passthrough_operations_return_raw_result
              (serializers := sample_serializers) sample_env sample_connected
              sample_session "acc-1" (Js.Str "signed") Js.Undefined eq_refl)
    as [[Hreceive _] [[Hbroadcast _] [Hlist _]]].
  split; [exact Hreceive|]. split; [exact Hbroadcast | exact Hlist].
Defined.

Lemma listAccounts_rejects_non_array_result_witness :
  let env := uniform_env (Normal (Js.Str "none")) in
  let connected := snd (connect env (constructor 1)) in
  (exists message : string,
      fst (listAccounts env connected) = Throw (Js.TypeError message))
  /\ trace (snd (listAccounts env connected)) =
     trace (snd (JSONRPCServerAndClient_request env sample_session
                   "account.list" Js.Undefined Js.Undefined
                   (request_logged "account.list" Js.Undefined Js.Undefined
                      connected)))
     ++ [Logged level_log "response - account.list"
           [ArgValue Js.Undefined; ArgValue Js.Undefined]].
Proof.
  apply (listAccounts_rejects_non_array_result
           (serializers := sample_serializers)
           (uniform_env (Normal (Js.Str "none")))
           (snd (connect (uniform_env (Normal (Js.Str "none"))) (constructor 1)))
           sample_session (Js.Str "none")).
  - reflexivity.
  - reflexivity.
  - intros items. discriminate.
Defined.

Lemma calls_keep_session_and_never_retry_witness :
  let c : Call Js.value Js.value unit := call_requestAccount Js.Undefined in
  fst (perform sample_env c sample_connected) = Throw (Js.Error "User denied")
  /\ serverAndClient (snd (perform sample_env c sample_connected))
     = Some sample_session.
Proof.
  split; [reflexivity|].
  destruct (calls_keep_session_and_never_retry
              (serializers := sample_serializers) sample_env
              (call_requestAccount Js.Undefined : Call Js.value Js.value unit)
              sample_connected eq_refl eq_refl) as [Hfield _].
  exact Hfield.
Defined.

Lemma facade_hands_failures_on_witness :
  let env := uniform_env (Throw (Js.Error "socket closed")) in
  let c : Call Js.value Js.value unit := call_listAccounts in
  fst (perform env c (snd (connect env (constructor 1))))
  = Throw (Js.Error "socket closed").
Proof.
  destruct (facade_hands_failures_on
              (serializers := sample_serializers)
              (uniform_env (Throw (Js.Error "socket closed")))
              (call_listAccounts : Call Js.value Js.value unit)
              (snd (connect (uniform_env (Throw (Js.Error "socket closed")))
                      (constructor 1)))
              sample_session (Throw (Js.Error "socket closed")))
    as [Hreject _].
  - reflexivity.
  - reflexivity.
  - intros v. discriminate.
  - intros. reflexivity.
  - apply Hreject. reflexivity.
Defined.

Lemma requests_enter_engine_in_call_order_witness :
  let calls : list (Call Js.value Js.value unit) :=
    [call_receive "acc-1"; call_getDeviceInfo; call_listAccounts] in
  exists events,
    trace (snd (run sample_env calls sample_connected)) =
    trace sample_connected ++ events
    /\ engine_requests events =
       [("account.receive", Js.Obj [("accountId", Js.Str "acc-1")]);
        ("account.list", Js.Undefined)].
Proof.
  destruct (requests_enter_engine_in_call_order
              (serializers := sample_serializers) sample_env
              ([call_receive "acc-1"; call_getDeviceInfo; call_listAccounts]
                 : list (Call Js.value Js.value unit))
              sample_connected sample_session eq_refl eq_refl)
    as [_ [_ [events [Htrace Hengine]]]].
  exists events. split; [exact Htrace | exact Hengine].
Defined.

Lemma connect_then_request_reaches_the_transport_witness :
  let after :=
    _request sample_env "transaction.broadcast" (Js.Obj []) Js.Undefined
      (snd (connect sample_env (constructor 1))) in
  fst after = Normal (Js.Str "0xABC")
  /\ exists events,
       trace (snd after) = trace (snd (connect sample_env (constructor 1)))
                           ++ events
       /\ transport_sends events =
          [envelope 1 "transaction.broadcast" (Js.Obj [])].
Proof.
  destruct (connect_then_request_reaches_the_transport sample_env
              (constructor 1) "transaction.broadcast" (Js.Obj []) Js.Undefined
              eq_refl)
    as [Hfst [events [Htrace [_ [Hsends _]]]]].
  split; [exact Hfst|].
  exists events. split; [exact Htrace | exact Hsends].
Defined.

Lemma disconnect_leaves_callback_registered_witness :
  let after := snd (disconnect sample_env sample_connected) in
  serverAndClient after = None /\ onMessage after = Some sample_session.
Proof.
  destruct (disconnect_leaves_callback_registered sample_env (constructor 1)
              eq_refl) as [Hfield [_ Hcallback]].
  split; [exact Hfield | exact Hcallback].
Defined.

Lemma failed_reconnect_moves_the_callback_only_witness :
  let once := snd (connect strict_env (constructor 1)) in
  let after := snd (connect strict_env once) in
  serverAndClient after = Some sample_session
  /\ exists orphan : Session,
       onMessage after = Some orphan /\ orphan <> sample_session.
Proof.
  destruct (failed_reconnect_moves_the_callback_only strict_env
              (snd (connect strict_env (constructor 1))) sample_session
              (Js.Error "transport is already connected") eq_refl)
    as [Hfield [Horphan _]].
  - split; cbn; lia.
  - reflexivity.
  - split; [exact Hfield | exact Horphan].
Defined.
